(** * Todo application: REST handlers, transport client and optimistic cache

    A shallow embedding of the parts of the todo application that its
    specification describes:

    - the server side ([Module Server]): the validation schemas of
      [schemas/todo.schema.ts], the error handler of
      [middleware/errorHandler.ts], and the route callbacks of the todo and
      stats routers (list, update, toggle, stats), run against a table of
      rows;
    - the client side ([Module Client]): [fetchApi] of the transport client
      and the mutation hooks (create, update, delete, toggle, delete
      completed) run against a query cache.

    Conventions.  A string is the UTF-8 encoding of the JavaScript string
    (a surrogate without its pair as three bytes), and [utf16_length] is
    the [length] that JavaScript gives it.
    JavaScript numbers that the code only counts with are [Z]; a product
    that leaves the integers a double holds exactly is rounded as a double
    is ([round_to_double]), and the completion rate of the stats route
    uses the binary64 primitive floats.  [undefined] is
    [None]; a nullable optional field is an [option (option _)].  Stateful
    code passes its state explicitly: a route callback maps a table to a new
    table and a result, a mutation maps a cache state to a cache state.

    What the code calls but does not define is a [Variable] of the section
    that uses it: the tests and messages of the validation library, the
    database's [ILIKE], its reading of a timestamp and its CHECK
    constraints, the string conversions of the JavaScript runtime.  The
    statements of SQL are read as functions on the table, and the operations
    of the query cache ([getQueryData], [setQueryData], [setQueriesData],
    [invalidateQueries]) as functions on a finite map from query keys to
    query states. *)

From Stdlib Require Import ZArith Floats Uint63 Ascii String.
From stdpp Require Import gmap strings list sorting pretty.

Local Open Scope string_scope.
Local Open Scope Z_scope.

(** ** Values shared by server and client *)

Inductive Priority := low | medium | high.

#[global] Instance Priority_eq_dec : EqDecision Priority.
Proof. solve_decision. Defined.

#[global] Instance Priority_countable : Countable Priority.
Proof.
  refine (inj_countable'
            (fun p => match p with low => 0%nat | medium => 1%nat | high => 2%nat end)
            (fun n => match n with 0%nat => low | 1%nat => medium | _ => high end) _).
  intros []; reflexivity.
Defined.

(** [priorityEnum]: the closed set of priority names. *)
Definition priority_of_string (s : string) : option Priority :=
  if decide (s = "low") then Some low
  else if decide (s = "medium") then Some medium
  else if decide (s = "high") then Some high
  else None.

(** JSON values, for request bodies, error details and response bodies whose
    shape the code does not fix.  Numbers are integers: the code looks at an
    untyped number only to test whether it is truthy. *)
#[local] Unset Elimination Schemes.
Inductive Json :=
| JNull
| JBool (b : bool)
| JNum (n : Z)
| JStr (s : string)
| JArr (items : list Json)
| JObj (fields : gmap string Json).
#[local] Set Elimination Schemes.

(** JavaScript truthiness of a JSON value. *)
Definition truthy (v : Json) : bool :=
  match v with
  | JNull => false
  | JBool b => b
  | JNum n => negb (n =? 0)
  | JStr s => negb (String.eqb s "")
  | JArr _ | JObj _ => true
  end.

(** [x !== undefined] *)
Definition defined {A} (x : option A) : bool :=
  match x with Some _ => true | None => false end.

(** [String.prototype.includes]. *)
Fixpoint includes (hay needle : string) : bool :=
  String.prefix needle hay ||
  match hay with
  | EmptyString => false
  | String _ rest => includes rest needle
  end.

(** [s.length]: the number of UTF-16 code units of the JavaScript string
    that the bytes of [s] encode.  The byte that starts a character counts
    one unit, and two when the character needs four bytes (a surrogate pair
    in UTF-16); a continuation byte counts none. *)
Definition utf16_units (c : ascii) : Z :=
  let n := Z.of_N (Ascii.N_of_ascii c) in
  if n <? 128 then 1
  else if n <? 192 then 0
  else if n <? 240 then 1
  else 2.

Fixpoint utf16_length (s : string) : Z :=
  match s with
  | EmptyString => 0
  | String c rest => utf16_units c + utf16_length rest
  end.

(** ASCII lower case of a string. *)
Definition lower_ascii (c : ascii) : ascii :=
  let n := Ascii.N_of_ascii c in
  if ((65 <=? n) && (n <=? 90))%N then Ascii.ascii_of_N (n + 32) else c.

Fixpoint lower (s : string) : string :=
  match s with
  | EmptyString => EmptyString
  | String c rest => String (lower_ascii c) (lower rest)
  end.

(** * The server *)

Module Server.

(** ** Errors and the global error handler ([middleware/errorHandler.ts]) *)

Inductive ZodIssueCode :=
| invalid_type | too_small | too_big | invalid_enum_value | invalid_string.

Record ZodIssue := mkIssue {
  issue_path : list string;
  issue_code : ZodIssueCode;
  issue_message : string
}.

(** What a middleware or a route callback hands to [next]: a validation
    error of the schema library, or any other thrown value, seen through the
    three properties the handler reads ([ApiError]: [message], [statusCode],
    [details], each possibly undefined). *)
Inductive Thrown :=
| ZodError (issues : list ZodIssue)
| ApiError (message : option string) (statusCode : option Z) (details : option Json).

(** [createError(message, statusCode, details?)]. *)
Definition createError (message : string) (statusCode : Z) (details : option Json) : Thrown :=
  ApiError (Some message) (Some statusCode) details.

(** The [details] member of an error response. *)
Inductive ErrorDetails :=
| IssueList (issues : list (string * string))
| CustomDetails (d : Json).

(** The error response: the status given to [res.status] and the object
    given to [res.json]; a member that is undefined is left out of the
    object. *)
Record ErrorResponse := mkErrorResponse {
  res_status : Z;
  res_error : option string;
  res_details : option ErrorDetails
}.

(** [Array.prototype.join('.')] on a path. *)
Fixpoint join_path (path : list string) : string :=
  match path with
  | [] => ""
  | [x] => x
  | x :: rest => x ++ "." ++ join_path rest
  end.

(** [message?.includes(needle)], read as a condition. *)
Definition message_includes (message : option string) (needle : string) : bool :=
  match message with
  | Some m => includes m needle
  | None => false
  end.

(** [err.statusCode || 500]. *)
Definition status_or_500 (statusCode : option Z) : Z :=
  match statusCode with
  | Some c => if c =? 0 then 500 else c
  | None => 500
  end.

(** [errorHandler(err, req, res, next)], without the development log. *)
Definition errorHandler (err : Thrown) : ErrorResponse :=
  match err with
  | ZodError issues =>
      mkErrorResponse 400 (Some "Validation failed")
        (Some (IssueList
           (map (fun e => (join_path (issue_path e), issue_message e)) issues)))
  | ApiError message statusCode details =>
      if message_includes message "duplicate key" then
        mkErrorResponse 409 (Some "Resource already exists") None
      else if message_includes message "violates foreign key" then
        mkErrorResponse 400 (Some "Invalid reference") None
      else
        let status := status_or_500 statusCode in
        let msg := if status =? 500 then Some "Internal server error" else message in
        mkErrorResponse status msg
          (match details with
           | Some d => if truthy d then Some (CustomDetails d) else None
           | None => None
           end)
  end.

(** ** Validation schemas ([schemas/todo.schema.ts]) and the validation
    middleware *)

(** The result of [schema.parse]: the issues collected, or the parsed value. *)
Definition issues_of {A} (r : list ZodIssue + A) : list ZodIssue :=
  match r with inl issues => issues | inr _ => [] end.

(** [UpdateTodoInput]: every member optional; [description] and [due_date]
    may also be null. *)
Record UpdateTodoInput := mkUpdateTodoInput {
  u_title : option string;
  u_description : option (option string);
  u_priority : option Priority;
  u_due_date : option (option string);
  u_completed : option bool
}.

(** [ListTodosQuery], as the list callback reads it. *)
Record ListTodosQuery := mkListTodosQuery {
  q_completed : option bool;
  q_priority : option Priority;
  q_search : option string;
  q_page : option Z;
  q_limit : option Z
}.

(** A member of [req.query]: a string, or an array or nested object (which
    every schema below refuses). *)
Inductive QueryValue :=
| QString (s : string)
| QNested.

(** Decimal digits, most significant first, read onto an accumulator. *)
Fixpoint read_digits (s : string) (acc : Z) : option Z :=
  match s with
  | EmptyString => Some acc
  | String c rest =>
      let d := Z.of_N (Ascii.N_of_ascii c) - 48 in
      if (0 <=? d) && (d <=? 9) then read_digits rest (10 * acc + d) else None
  end.

(** [Number(s)] on the numerals the model reads: the empty string (zero) and
    an optionally signed run of decimal digits, of magnitude below [2^53],
    the integers that a double holds exactly.  Any other string gives
    [None]: a value outside the model (a larger integer, which [Number]
    rounds, a fraction, an exponent or hex numeral, surrounding blanks,
    [NaN]). *)
Definition Number (s : string) : option Z :=
  let unsigned (t : string) :=
    match t with
    | EmptyString => None
    | _ => read_digits t 0
    end in
  let value :=
    match s with
    | EmptyString => Some 0
    | String "-"%char rest => Z.opp <$> unsigned rest
    | String "+"%char rest => unsigned rest
    | _ => unsigned s
    end in
  match value with
  | Some n => if Z.abs n <? 2 ^ 53 then Some n else None
  | None => None
  end.

Section Schemas.

(** The validation library's message for an issue to which the schema
    attaches none of its own. *)
Variable default_message : ZodIssueCode -> string.

(** The library's [datetime()] test of a string. *)
Variable is_datetime : string -> bool.

Definition issue (path : list string) (code : ZodIssueCode) : ZodIssue :=
  mkIssue path code (default_message code).

(** [z.string().min(1, 'Title is required').max(500, 'Title too long').optional()] *)
Definition title_optional (v : option Json) : list ZodIssue + option string :=
  match v with
  | None => inr None
  | Some (JStr s) =>
      let len := utf16_length s in
      if len <? 1 then inl [mkIssue ["title"] too_small "Title is required"]
      else if 500 <? len then inl [mkIssue ["title"] too_big "Title too long"]
      else inr (Some s)
  | Some _ => inl [issue ["title"] invalid_type]
  end.

(** [z.string().max(5000, 'Description too long').optional().nullable()] *)
Definition description_optional_nullable (v : option Json)
  : list ZodIssue + option (option string) :=
  match v with
  | None => inr None
  | Some JNull => inr (Some None)
  | Some (JStr s) =>
      if 5000 <? utf16_length s
      then inl [mkIssue ["description"] too_big "Description too long"]
      else inr (Some (Some s))
  | Some _ => inl [issue ["description"] invalid_type]
  end.

(** [priorityEnum.optional()] on a body member. *)
Definition priority_optional (v : option Json) : list ZodIssue + option Priority :=
  match v with
  | None => inr None
  | Some (JStr s) =>
      match priority_of_string s with
      | Some p => inr (Some p)
      | None => inl [issue ["priority"] invalid_enum_value]
      end
  | Some _ => inl [issue ["priority"] invalid_type]
  end.

(** [z.string().datetime().optional().nullable()] *)
Definition due_date_optional_nullable (v : option Json)
  : list ZodIssue + option (option string) :=
  match v with
  | None => inr None
  | Some JNull => inr (Some None)
  | Some (JStr s) =>
      if is_datetime s then inr (Some (Some s))
      else inl [issue ["due_date"] invalid_string]
  | Some _ => inl [issue ["due_date"] invalid_type]
  end.

(** [z.boolean().optional()] *)
Definition completed_optional (v : option Json) : list ZodIssue + option bool :=
  match v with
  | None => inr None
  | Some (JBool b) => inr (Some b)
  | Some _ => inl [issue ["completed"] invalid_type]
  end.

(** [updateTodoSchema.parse]: an object schema reads the members it
    declares and drops every other member of the body. *)
Definition updateTodoSchema (body : Json) : list ZodIssue + UpdateTodoInput :=
  match body with
  | JObj fields =>
      let t := title_optional (fields !! "title") in
      let d := description_optional_nullable (fields !! "description") in
      let p := priority_optional (fields !! "priority") in
      let dd := due_date_optional_nullable (fields !! "due_date") in
      let c := completed_optional (fields !! "completed") in
      match t, d, p, dd, c with
      | inr t', inr d', inr p', inr dd', inr c' =>
          inr (mkUpdateTodoInput t' d' p' dd' c')
      | _, _, _, _, _ =>
          inl (issues_of t ++ issues_of d ++ issues_of p ++ issues_of dd ++ issues_of c)%list
      end
  | _ => inl [issue [] invalid_type]
  end.

(** [z.enum(['true', 'false']).optional().transform(val => val === 'true')]:
    the transform also runs on an absent member, on which [val === 'true']
    is [false]. *)
Definition completed_query (v : option QueryValue) : list ZodIssue + option bool :=
  match v with
  | None => inr (Some false)
  | Some (QString s) =>
      if decide (s = "true") then inr (Some true)
      else if decide (s = "false") then inr (Some false)
      else inl [issue ["completed"] invalid_enum_value]
  | Some QNested => inl [issue ["completed"] invalid_type]
  end.

(** [priorityEnum.optional()] on a query member. *)
Definition priority_query (v : option QueryValue) : list ZodIssue + option Priority :=
  match v with
  | None => inr None
  | Some (QString s) =>
      match priority_of_string s with
      | Some p => inr (Some p)
      | None => inl [issue ["priority"] invalid_enum_value]
      end
  | Some QNested => inl [issue ["priority"] invalid_type]
  end.

(** [z.string().optional()] *)
Definition search_query (v : option QueryValue) : list ZodIssue + option string :=
  match v with
  | None => inr None
  | Some (QString s) => inr (Some s)
  | Some QNested => inl [issue ["search"] invalid_type]
  end.

(** [z.string().optional().default(dflt).transform(Number)]: [None] when
    the number is outside the model. *)
Definition number_query (name dflt : string) (v : option QueryValue)
  : option (list ZodIssue + option Z) :=
  match v with
  | None => (fun n => inr (Some n)) <$> Number dflt
  | Some (QString s) => (fun n => inr (Some n)) <$> Number s
  | Some QNested => Some (inl [issue [name] invalid_type])
  end.

(** [listTodosQuerySchema.parse]; [None] when [page] or [limit] is a
    number outside the model. *)
Definition listTodosQuerySchema (query : gmap string QueryValue)
  : option (list ZodIssue + ListTodosQuery) :=
  let c := completed_query (query !! "completed") in
  let p := priority_query (query !! "priority") in
  let s := search_query (query !! "search") in
  match number_query "page" "1" (query !! "page"),
        number_query "limit" "50" (query !! "limit") with
  | Some pg, Some lm =>
      Some match c, p, s, pg, lm with
           | inr c', inr p', inr s', inr pg', inr lm' =>
               inr (mkListTodosQuery c' p' s' pg' lm')
           | _, _, _, _, _ =>
               inl (issues_of c ++ issues_of p ++ issues_of s ++ issues_of pg ++ issues_of lm)%list
           end
  | _, _ => None
  end.

(** [validateBody(schema)] and [validateQuery(schema)]: replace the request
    member by the parsed value and go on, or hand the error to [next]. *)
Definition validate {I A} (schema : I -> list ZodIssue + A) (input : I) : Thrown + A :=
  match schema input with
  | inl issues => inl (ZodError issues)
  | inr v => inr v
  end.

End Schemas.

(** ** The table [todo_app.todos] *)

(** A row.  Timestamps are instants on the database clock. *)
Record TodoRow := mkTodoRow {
  row_id : string;
  row_title : string;
  row_description : option string;
  row_completed : bool;
  row_priority : Priority;
  row_due_date : option Z;
  row_created_at : Z;
  row_updated_at : Z
}.

Abbreviation Table := (list TodoRow).

(** The failures of a statement that the routes below can provoke: the
    text of a [LIMIT] or [OFFSET] parameter is no integer numeral or names
    an integer outside [bigint], the offset or the limit is negative, a
    CHECK constraint fails, a date-time string is refused, the text of an
    id is no uuid.  A failure to read a parameter carries the parameter,
    which the message of the database quotes. *)
Inductive DbError :=
| bigint_syntax (n : Z) | bigint_out_of_range (n : Z)
| offset_negative | limit_negative | check_violation | datetime_out_of_range
| uuid_syntax (text : string).

(** [WHERE id = $n], for the uuid that the database read from the
    parameter; [id] is that uuid, written as the ids of the rows are. *)
Definition has_id (id : string) (r : TodoRow) : bool := bool_decide (row_id r = id).

(** A row as [UPDATE ... WHERE id = $n] leaves it: rewritten by [f] when it
    has the id. *)
Definition on_id (id : string) (f : TodoRow -> TodoRow) (r : TodoRow) : TodoRow :=
  if has_id id r then f r else r.

(** [COUNT( * )] of the rows that satisfy a condition. *)
Definition count (cond : TodoRow -> bool) (t : Table) : Z :=
  Z.of_nat (length (List.filter cond t)).

(** [ORDER BY created_at DESC].  Rows of equal [created_at] keep the order
    of the table (the database promises none). *)
Fixpoint insert_desc (r : TodoRow) (rows : list TodoRow) : list TodoRow :=
  match rows with
  | [] => [r]
  | r' :: rest =>
      if row_created_at r' <=? row_created_at r then r :: rows
      else r' :: insert_desc r rest
  end.

Definition order_by_created_at_desc (rows : list TodoRow) : list TodoRow :=
  foldr insert_desc [] rows.

(** [LIMIT l OFFSET o] for [l] and [o] that are not negative. *)
Definition limit_offset (l o : Z) (rows : list TodoRow) : list TodoRow :=
  take (Z.to_nat l) (drop (Z.to_nat o) rows).

(** ** Responses *)

Record Pagination := mkPagination {
  page : Z;
  limit : Z;
  total : Z;
  (** [None] is a value that is not a finite number, written [null] in the
      response. *)
  totalPages : option Z
}.

Record ListResponse := mkListResponse {
  data : list TodoRow;
  pagination : Pagination
}.

Record Stats := mkStats {
  stats_total : Z;
  stats_completed : Z;
  stats_incomplete : Z;
  (** [None] as for [totalPages]. *)
  stats_completionRate : option Z;
  stats_byPriority : list (Priority * Z);
  stats_overdue : Z
}.

(** ** Number arithmetic of the routes *)

(** [Math.ceil(a / b)] for integers [a >= 0] and [b > 0] below [2^53], on
    which the rounded quotient has the ceiling of the exact one. *)
Definition Math_ceil_div (a b : Z) : Z := - ((- a) / b).

(** The integer that the double nearest to an integer holds, a tie going to
    the even mantissa: the value of a product of integers in the arithmetic
    of the code.  An integer of magnitude below [2^53] is held exactly. *)
Definition round_to_double (n : Z) : Z :=
  let a := Z.abs n in
  if a <? 2 ^ 53 then n
  else
    let e := Z.log2 a - 52 in
    let q := a / 2 ^ e in
    let r := a mod 2 ^ e in
    let half := 2 ^ (e - 1) in
    let q' := if r <? half then q
              else if half <? r then q + 1
              else if Z.even q then q else q + 1 in
    Z.sgn n * (q' * 2 ^ e).

(** A number that holds an integer, as a [bigint] parameter: the driver
    sends the text of the number, which has an exponent from [10^21] on, and
    the database reads an integer numeral from [-2^63] to [2^63 - 1]. *)
Definition bigint_param (n : Z) : option DbError :=
  if 10 ^ 21 <=? Z.abs n then Some (bigint_syntax n)
  else if (- 2 ^ 63 <=? n) && (n <? 2 ^ 63) then None
  else Some (bigint_out_of_range n).

(** A count as a double (exact below [2^53]). *)
Definition to_double (n : Z) : float := PrimFloat.of_uint63 (Uint63.of_Z n).

(** [Math.round]: the integer nearest to a finite double, a tie going
    towards positive infinity. *)
Definition Math_round (x : float) : option Z :=
  match Prim2SF x with
  | S754_zero _ => Some 0
  | S754_finite sign m e =>
      let num := if sign then Z.neg m else Z.pos m in
      Some (if 0 <=? e then num * 2 ^ e
            else (2 * num + 2 ^ (- e)) / 2 ^ (- e + 1))
  | S754_infinity _ | S754_nan => None
  end.

Section Routes.

(** The database's [text ILIKE pattern]. *)
Variable ilike : string -> string -> bool.

(** The database's reading of a date-time string as a timestamp; [None]
    when it refuses the string. *)
Variable timestamp_in : string -> option Z.

(** The CHECK constraints of the installed schema on [title] and
    [description] (the schema file declares two, the migration none). *)
Variable table_check : string -> option string -> bool.

(** The message of a database error. *)
Variable db_message : DbError -> string.

Definition db_error (e : DbError) : Thrown :=
  ApiError (Some (db_message e)) None None.

Definition row_check (r : TodoRow) : bool :=
  table_check (row_title r) (row_description r).

(** *** [GET /api/todos] *)

(** The WHERE clause that the callback assembles:
    [if (completed !== undefined)], [if (priority)], [if (search)]. *)
Definition list_where (completed : option bool) (priority : option Priority)
    (search : option string) (r : TodoRow) : bool :=
  match completed with
  | Some c => Bool.eqb (row_completed r) c
  | None => true
  end
  &&
  match priority with
  | Some p => bool_decide (row_priority r = p)
  | None => true
  end
  &&
  match search with
  | Some s =>
      if String.eqb s "" then true
      else
        let pattern := "%" ++ s ++ "%" in
        ilike (row_title r) pattern
        || match row_description r with
           | Some d => ilike d pattern
           | None => false
           end
  | None => true
  end.

(** The callback of the list route, on the parsed query.  The database
    reads the parameters, [limit] before [offset], before it runs the
    statement. *)
Definition list_todos (t : Table) (q : ListTodosQuery) : Thrown + ListResponse :=
  let page := default 1 (q_page q) in
  let limit := default 50 (q_limit q) in
  let offset := round_to_double ((page - 1) * limit) in
  let cond := list_where (q_completed q) (q_priority q) (q_search q) in
  match bigint_param limit, bigint_param offset with
  | Some e, _ | None, Some e => inl (db_error e)
  | None, None =>
  if offset <? 0 then inl (db_error offset_negative)
  else if limit <? 0 then inl (db_error limit_negative)
  else
    let rows := limit_offset limit offset (order_by_created_at_desc (List.filter cond t)) in
    let total := count cond t in
    inr (mkListResponse rows
           (mkPagination page limit total
              (if limit =? 0 then None else Some (Math_ceil_div total limit))))
  end.

(** *** [PATCH /api/todos/:id] *)

(** The columns named in the SET list, in the order the callback pushes
    them. *)
Definition updates (input : UpdateTodoInput) : list string :=
  ((if defined (u_title input) then ["title"] else [])
   ++ (if defined (u_description input) then ["description"] else [])
   ++ (if defined (u_priority input) then ["priority"] else [])
   ++ (if defined (u_due_date input) then ["due_date"] else [])
   ++ (if defined (u_completed input) then ["completed"] else []))%list.

(** The [due_date] parameter as the database reads it: [None] when it
    refuses the string. *)
Definition due_date_param (d : option (option string)) : option (option (option Z)) :=
  match d with
  | None => Some None
  | Some None => Some (Some None)
  | Some (Some s) =>
      match timestamp_in s with
      | Some ts => Some (Some (Some ts))
      | None => None
      end
  end.

(** The new row of [UPDATE ... SET <updates>, updated_at = NOW()]; the
    BEFORE UPDATE trigger of the schema sets [updated_at] to the same
    instant. *)
Definition set_columns (input : UpdateTodoInput) (due : option (option Z))
    (now : Z) (r : TodoRow) : TodoRow :=
  mkTodoRow (row_id r)
    (default (row_title r) (u_title input))
    (default (row_description r) (u_description input))
    (default (row_completed r) (u_completed input))
    (default (row_priority r) (u_priority input))
    (default (row_due_date r) due)
    (row_created_at r)
    now.

(** [UPDATE ... WHERE id = $n RETURNING *]: the new table and the returned
    rows, or the failure that leaves the table as it was. *)
Definition update_where_id (f : TodoRow -> TodoRow) (id : string) (t : Table)
  : DbError + Table * list TodoRow :=
  let t' := map (on_id id f) t in
  let returned := List.filter (has_id id) t' in
  if forallb row_check returned then inr (t', returned)
  else inl check_violation.

(** The callback of the update route, on the validated body and on the
    uuid that the database read from the id. *)
Definition update_todo (t : Table) (now : Z) (id : string) (input : UpdateTodoInput)
  : Table * (Thrown + TodoRow) :=
  match updates input with
  | [] => (t, inl (createError "No fields to update" 400 None))
  | _ =>
      match due_date_param (u_due_date input) with
      | None => (t, inl (db_error datetime_out_of_range))
      | Some due =>
          match update_where_id (set_columns input due now) id t with
          | inl e => (t, inl (db_error e))
          | inr (_, []) => (t, inl (createError "Todo not found" 404 None))
          | inr (t', r :: _) => (t', inr r)
          end
      end
  end.

(** *** [POST /api/todos/:id/toggle] *)

(** [SET completed = NOT completed, updated_at = NOW()] *)
Definition set_toggled (now : Z) (r : TodoRow) : TodoRow :=
  mkTodoRow (row_id r) (row_title r) (row_description r)
    (negb (row_completed r)) (row_priority r) (row_due_date r)
    (row_created_at r) now.

(** The callback of the toggle route, on the uuid that the database read
    from the id. *)
Definition toggle_todo (t : Table) (now : Z) (id : string)
  : Table * (Thrown + TodoRow) :=
  match update_where_id (set_toggled now) id t with
  | inl e => (t, inl (db_error e))
  | inr (_, []) => (t, inl (createError "Todo not found" 404 None))
  | inr (t', r :: _) => (t', inr r)
  end.

(** *** [GET /api/stats] *)

(** [WHERE due_date < NOW() AND completed = false]; a null [due_date]
    compares to null and the row is left out. *)
Definition is_overdue (now : Z) (r : TodoRow) : bool :=
  match row_due_date r with
  | Some d => (d <? now) && negb (row_completed r)
  | None => false
  end.

(** [GROUP BY priority] ordered high, medium, low: a group per priority
    that has a row. *)
Definition priority_counts (t : Table) : list (Priority * Z) :=
  List.filter (fun g => 0 <? snd g)
    (map (fun p => (p, count (fun r => bool_decide (row_priority r = p)) t))
         [high; medium; low]).

(** [total > 0 ? Math.round((completed / total) * 100) : 0] *)
Definition completion_rate (completed total : Z) : option Z :=
  if 0 <? total
  then Math_round (PrimFloat.mul (PrimFloat.div (to_double completed) (to_double total))
                                 (to_double 100))
  else Some 0.

(** The callback of the stats route. *)
Definition get_stats (t : Table) (now : Z) : Stats :=
  let total := count (fun _ => true) t in
  let completed := count row_completed t in
  mkStats total completed (total - completed)
    (completion_rate completed total)
    (priority_counts t)
    (count (is_overdue now) t).

End Routes.

(** ** Requests from the body or query validator to the response

    A route with an [:id] segment registers the id validator first
    ([validateParams_uuid] below, and [patch_route] and [toggle_route] for
    the two routes as they are registered).  The definitions of this
    section are the rest of the chain, behind that validator; they and the
    callbacks above take the id as the uuid that the database read from
    it, written as the ids of the rows are. *)

Section Requests.

Variable default_message : ZodIssueCode -> string.
Variable is_datetime : string -> bool.
Variable ilike : string -> string -> bool.
Variable timestamp_in : string -> option Z.
Variable table_check : string -> option string -> bool.
Variable db_message : DbError -> string.

(** The update route behind its id validator:
    [validateBody(updateTodoSchema)], the update callback, and the error
    handler for what either hands to [next]. *)
Definition patch_todo (t : Table) (now : Z) (id : string) (body : Json)
  : Table * (ErrorResponse + TodoRow) :=
  match validate (updateTodoSchema default_message is_datetime) body with
  | inl e => (t, inl (errorHandler e))
  | inr input =>
      match update_todo timestamp_in table_check db_message t now id input with
      | (t', inl e) => (t', inl (errorHandler e))
      | (t', inr r) => (t', inr r)
      end
  end.

(** The toggle route behind its id validator: the toggle callback and the
    error handler. *)
Definition post_toggle (t : Table) (now : Z) (id : string)
  : Table * (ErrorResponse + TodoRow) :=
  match toggle_todo table_check db_message t now id with
  | (t', inl e) => (t', inl (errorHandler e))
  | (t', inr r) => (t', inr r)
  end.

(** [validateQuery(listTodosQuerySchema)], the list callback, and the
    error handler; [None] when [page] or [limit] is outside the model. *)
Definition get_todos (t : Table) (query : gmap string QueryValue)
  : option (ErrorResponse + ListResponse) :=
  match listTodosQuerySchema default_message query with
  | None => None
  | Some parsed =>
      Some match parsed with
           | inl issues => inl (errorHandler (ZodError issues))
           | inr q =>
               match list_todos ilike db_message t q with
               | inl e => inl (errorHandler e)
               | inr response => inr response
               end
           end
  end.

(** A write of the two callbacks that update a row in place, behind the id
    validator of their routes. *)
Inductive Write :=
| Patch (input : UpdateTodoInput)
| Toggle.

Definition write_todo (w : Write) (t : Table) (now : Z) (id : string)
  : Table * (Thrown + TodoRow) :=
  match w with
  | Patch input => update_todo timestamp_in table_check db_message t now id input
  | Toggle => toggle_todo table_check db_message t now id
  end.

End Requests.

(** [uuidSchema.transform((id) => ({ id }))]: a schema for a string that
    passes the library's uuid test; the transform wraps the string. *)
Definition uuid_param_schema (default_message : ZodIssueCode -> string)
    (is_uuid : string -> bool) (input : Json) : list ZodIssue + string :=
  match input with
  | JStr s =>
      if is_uuid s then inr s
      else inl [mkIssue [] invalid_string "Invalid ID format"]
  | _ => inl [mkIssue [] invalid_type (default_message invalid_type)]
  end.

(** The id validator as the routes register it,
    [validateParams(uuidSchema.transform(...))]: the middleware parses
    [req.params], the object that holds the path segment under the name
    [id]. *)
Definition validateParams_uuid (default_message : ZodIssueCode -> string)
    (is_uuid : string -> bool) (id : string) : Thrown + string :=
  validate (uuid_param_schema default_message is_uuid) (JObj {[ "id" := JStr id ]}).

(** A route with an [:id] segment as it is registered: the id validator
    first, then the rest of the chain with the id that the validator lets
    through; what the validator hands to [next] goes to the error handler
    and nothing is written. *)
Definition id_route {A} (default_message : ZodIssueCode -> string)
    (is_uuid : string -> bool) (rest : string -> Table * (ErrorResponse + A))
    (t : Table) (id : string) : Table * (ErrorResponse + A) :=
  match validateParams_uuid default_message is_uuid id with
  | inl e => (t, inl (errorHandler e))
  | inr id' => rest id'
  end.

(** [router.patch('/:id', validateParams(..), validateBody(..), callback)] *)
Definition patch_route (default_message : ZodIssueCode -> string)
    (is_datetime is_uuid : string -> bool) (timestamp_in : string -> option Z)
    (table_check : string -> option string -> bool) (db_message : DbError -> string)
    (t : Table) (now : Z) (id : string) (body : Json)
  : Table * (ErrorResponse + TodoRow) :=
  id_route default_message is_uuid
    (fun id' => patch_todo default_message is_datetime timestamp_in table_check
                  db_message t now id' body)
    t id.


(** ** Statements of the specification *)

(** The columns that a write may change besides [updated_at]. *)
Definition written_columns (w : Write) : list string :=
  match w with
  | Patch input => updates input
  | Toggle => ["completed"]
  end.

(** [new] is [old] with at most the columns [cols] and [updated_at] changed,
    and [updated_at] set to [now]. *)
Definition only_changed (cols : list string) (now : Z) (old new : TodoRow) : Prop :=
  row_id new = row_id old
  /\ row_created_at new = row_created_at old
  /\ row_updated_at new = now
  /\ ("title" ∉ cols -> row_title new = row_title old)
  /\ ("description" ∉ cols -> row_description new = row_description old)
  /\ ("priority" ∉ cols -> row_priority new = row_priority old)
  /\ ("due_date" ∉ cols -> row_due_date new = row_due_date old)
  /\ ("completed" ∉ cols -> row_completed new = row_completed old).

(** The order of a list response: no row is older than one before it. *)
Definition newer_first (a b : TodoRow) : Prop := row_created_at b <= row_created_at a.

(** The completion rate as the specification words it:
    [round(100*completed/total)], and 0 when [total] is 0; the quotient is
    exact and a tie rounds up. *)
Definition spec_completion_rate (completed total : Z) : Z :=
  if total =? 0 then 0 else (2 * (100 * completed) + total) / (2 * total).

(** The rows that match the filters of a list request as the specification
    words them: [completed] and [priority] matched exactly when present,
    [search] a substring of the title or of the description whatever the
    case, and no condition for a parameter that is absent. *)
Definition spec_matches (query : gmap string QueryValue) (r : TodoRow) : bool :=
  match query !! "completed" with
  | Some (QString s) => Bool.eqb (row_completed r) (String.eqb s "true")
  | _ => true
  end
  &&
  match query !! "priority" with
  | Some (QString s) => bool_decide (Some (row_priority r) = priority_of_string s)
  | _ => true
  end
  &&
  match query !! "search" with
  | Some (QString s) =>
      includes (lower (row_title r)) (lower s)
      || match row_description r with
         | Some d => includes (lower d) (lower s)
         | None => false
         end
  | _ => true
  end.

(** ** Sample data *)

Definition sample_row (id : string) (done : bool) (created : Z) : TodoRow :=
  mkTodoRow id "Buy milk" None done medium None created created.

(** Forty rows with ids 0 to 39, the first twenty-three completed. *)
Definition forty_rows : Table :=
  map (fun i => sample_row (pretty i) (i <? 23) i) (seqZ 0 40).


(** A row with the id of the route tests, not completed, written at
    instant 1. *)
Definition nil_uuid : string := "00000000-0000-0000-0000-000000000000".

Definition nil_row : TodoRow := sample_row nil_uuid false 1.



Definition empty_patch : Json := JObj ∅.

(** The response of the error handler to the error of the id validator. *)
Definition validation_failed (default_message : ZodIssueCode -> string) : ErrorResponse :=
  mkErrorResponse 400 (Some "Validation failed")
    (Some (IssueList [("", default_message invalid_type)])).

Definition any_uuid (_ : string) : bool := true.

Definition no_message (_ : ZodIssueCode) : string := "".
Definition no_db_message (_ : DbError) : string := "".
Definition no_match (_ _ : string) : bool := false.
Definition any_datetime (_ : string) : bool := true.
Definition any_timestamp (_ : string) : option Z := Some 0.
Definition no_check (_ : string) (_ : option string) : bool := true.

End Server.

(** * The client *)

Module Client.

(** ** Shared types ([shared/types]) *)

Record Todo := mkTodo {
  todo_id : string;
  title : string;
  description : option string;
  completed : bool;
  priority : Priority;
  due_date : option string;
  created_at : string;
  updated_at : string
}.

Record CreateTodoRequest := mkCreateTodoRequest {
  create_title : string;
  create_description : option string;
  create_priority : option Priority;
  create_due_date : option string
}.

Record UpdateTodoRequest := mkUpdateTodoRequest {
  update_title : option string;
  update_description : option string;
  update_completed : option bool;
  update_priority : option Priority;
  update_due_date : option (option string)
}.

Record TodoFilters := mkTodoFilters {
  filter_completed : option bool;
  filter_priority : option Priority;
  filter_search : option string;
  filter_page : option Z;
  filter_limit : option Z
}.

Record TodoListResponse := mkTodoListResponse {
  todos : list Todo;
  total : Z;
  page : Z;
  limit : Z;
  totalPages : Z
}.

Record TodoStats := mkTodoStats {
  stats_total : Z;
  stats_completed : Z;
  stats_incomplete : Z;
  stats_low : Z;
  stats_medium : Z;
  stats_high : Z
}.

#[global] Instance TodoFilters_eq_dec : EqDecision TodoFilters.
Proof. solve_decision. Defined.

#[global] Instance TodoFilters_countable : Countable TodoFilters.
Proof.
  refine (inj_countable'
            (fun f => (filter_completed f, filter_priority f, filter_search f,
                       filter_page f, filter_limit f))
            (fun t => match t with (c, p, s, pg, l) => mkTodoFilters c p s pg l end) _).
  intros []; reflexivity.
Defined.

(** ** The transport client ([api/client.ts]) *)

(** [ApiClientError(message, statusCode, details?)] *)
Record ApiClientError := mkApiClientError {
  message : string;
  statusCode : Z;
  details : option Json
}.





Section Transport.

(** The conversion of a value to a string by the [Error] constructor. *)
Variable ToString : Json -> string.

(** The message of the [TypeError] raised by reading a property of
    [null]. *)
Variable null_read_message : string.





End Transport.

(** ** The query cache ([lib/queryClient.ts] and the cache library) *)

(** A query key is an array; its members here are strings and the filters
    of a list query ([undefined] when [useTodos] is called without). *)
Inductive KeyPart :=
| KString (s : string)
| KFilters (f : option TodoFilters).

#[global] Instance KeyPart_eq_dec : EqDecision KeyPart.
Proof. solve_decision. Defined.

#[global] Instance KeyPart_countable : Countable KeyPart.
Proof.
  refine (inj_countable'
            (fun k => match k with KString s => inl s | KFilters f => inr f end)
            (fun x => match x with inl s => KString s | inr f => KFilters f end) _).
  intros []; reflexivity.
Defined.

Abbreviation QueryKey := (list KeyPart).

(** [queryKeys] *)
Module queryKeys.
Definition todos_all : QueryKey := [KString "todos"].
Definition todos_lists : QueryKey := todos_all ++ [KString "list"].
Definition todos_list (filters : option TodoFilters) : QueryKey :=
  todos_lists ++ [KFilters filters].
Definition todos_details : QueryKey := todos_all ++ [KString "detail"].
Definition todos_detail (id : string) : QueryKey := todos_details ++ [KString id].
Definition stats_all : QueryKey := [KString "stats"].
End queryKeys.

(** The data of a query.  Only [useTodos] fills keys under the list prefix,
    only [useTodo] detail keys and only [useStats] the stats key. *)
Inductive CacheData :=
| ListData (r : TodoListResponse)
| TodoData (t : Todo)
| StatsData (s : TodoStats).

(** The state of a query that the hooks touch: its data ([None] while there
    is none) and the flag that makes the next read refetch. *)
Record QueryState := mkQueryState {
  state_data : option CacheData;
  isInvalidated : bool
}.

(** The query cache: at most one query per key. *)
Abbreviation QueryCache := (gmap QueryKey QueryState).

(** A query filter [{ queryKey }] matches the queries whose key starts with
    it. *)
Fixpoint matches (filter key : QueryKey) : bool :=
  match filter, key with
  | [], _ => true
  | f :: filter', k :: key' => bool_decide (f = k) && matches filter' key'
  | _ :: _, [] => false
  end.

(** [getQueryData(key)]: the data of the query with exactly this key. *)
Definition getQueryData (key : QueryKey) (cache : QueryCache) : option CacheData :=
  cache !! key ≫= state_data.

(** Storing data in a query marks it fresh. *)
Definition setData (d : CacheData) : QueryState := mkQueryState (Some d) false.

(** [setQueryData(key, updater)]: an updater that returns [undefined] writes
    nothing; otherwise the query is written, and created if there is none. *)
Definition setQueryData (key : QueryKey)
    (updater : option CacheData -> option CacheData) (cache : QueryCache) : QueryCache :=
  match updater (getQueryData key cache) with
  | Some d => <[key := setData d]> cache
  | None => cache
  end.

(** [setQueriesData({ queryKey: filter }, updater)]: [setQueryData] on every
    query that the filter matches. *)
Definition setQueriesData (filter : QueryKey)
    (updater : option CacheData -> option CacheData) (cache : QueryCache) : QueryCache :=
  map_imap (fun key q =>
              Some (if matches filter key
                    then match updater (state_data q) with
                         | Some d => setData d
                         | None => q
                         end
                    else q)) cache.

(** The effect of [invalidateQueries({ queryKey: filter })] on the cache:
    the matching queries are marked invalidated. *)
Definition invalidate (filter : QueryKey) (cache : QueryCache) : QueryCache :=
  map_imap (fun key q =>
              Some (if matches filter key
                    then mkQueryState (state_data q) true
                    else q)) cache.

(** ** The mutation hooks ([hooks/useTodos.ts])

    What a hook touches: the query cache, the calls of [invalidateQueries]
    so far (the filter key of each, oldest first), and the toasts shown.
    [cancelQueries] stops fetches in flight and leaves the data of every
    query as it is, so it does not appear below. *)

Inductive ToastKind := success | error.

Record ClientState := mkClientState {
  cache : QueryCache;
  invalidations : list QueryKey;
  toasts : list (ToastKind * string)
}.

Definition on_cache (f : QueryCache -> QueryCache) (st : ClientState) : ClientState :=
  mkClientState (f (cache st)) (invalidations st) (toasts st).

(** [queryClient.invalidateQueries({ queryKey: filter })] *)
Definition invalidateQueries (filter : QueryKey) (st : ClientState) : ClientState :=
  mkClientState (invalidate filter (cache st)) (invalidations st ++ [filter]) (toasts st).

Definition showSuccess (msg : string) (st : ClientState) : ClientState :=
  mkClientState (cache st) (invalidations st) (toasts st ++ [(success, msg)]).

Definition showError (msg : string) (st : ClientState) : ClientState :=
  mkClientState (cache st) (invalidations st) (toasts st ++ [(error, msg)]).

(** The variables of the four optimistic mutations. *)
Inductive Mutation :=
| CreateTodo (newTodo : CreateTodoRequest)
| UpdateTodo (id : string) (data : UpdateTodoRequest)
| DeleteTodo (id : string)
| ToggleTodo (id : string).

(** The context that [onMutate] returns; a hook that takes no snapshot of
    the detail query leaves [previousTodo] undefined. *)
Record Context := mkContext {
  previousTodo : option CacheData;
  previousTodos : option CacheData
}.

(** How the transport call of a mutation ends, after its retry. *)
Inductive TransportResult :=
| Resolved
| Rejected (e : ApiClientError).

(** [s || null] on an optional string. *)
Definition or_null (s : option string) : option string :=
  match s with
  | Some x => if String.eqb x "" then None else Some x
  | None => None
  end.

Section Hooks.

(** [new Date(ms).toISOString()] *)
Variable toISOString : Z -> string.

(** The stand-in that [useCreateTodo] puts in the lists; [now] is the
    reading of the clock. *)
Definition optimisticTodo (newTodo : CreateTodoRequest) (now : Z) : Todo :=
  mkTodo ("temp-" ++ pretty now)
    (create_title newTodo)
    (or_null (create_description newTodo))
    false
    (default medium (create_priority newTodo))
    (or_null (create_due_date newTodo))
    (toISOString now)
    (toISOString now).

(** [{ ...todo, ...data, updated_at: new Date().toISOString() }], for a
    [data] whose members have values: a member that is present with the
    value [undefined], which the spread would copy, is read here as
    absent. *)
Definition merge (data : UpdateTodoRequest) (now : Z) (todo : Todo) : Todo :=
  mkTodo (todo_id todo)
    (default (title todo) (update_title data))
    (match update_description data with Some d => Some d | None => description todo end)
    (default (completed todo) (update_completed data))
    (default (priority todo) (update_priority data))
    (default (due_date todo) (update_due_date data))
    (created_at todo)
    (toISOString now).

(** [{ ...todo, completed: !todo.completed, updated_at: ... }] *)
Definition toggled (now : Z) (todo : Todo) : Todo :=
  mkTodo (todo_id todo) (title todo) (description todo) (negb (completed todo))
    (priority todo) (due_date todo) (created_at todo) (toISOString now).

(** An updater of list data: [if (!old) return old], else the new list
    response.  The data under a list key is a list response. *)
Definition on_list (f : TodoListResponse -> TodoListResponse)
    (old : option CacheData) : option CacheData :=
  match old with
  | Some (ListData r) => Some (ListData (f r))
  | other => other
  end.

(** An updater of the data of a detail query, likewise. *)
Definition on_todo (f : Todo -> Todo) (old : option CacheData) : option CacheData :=
  match old with
  | Some (TodoData t) => Some (TodoData (f t))
  | other => other
  end.

Definition with_todos (f : list Todo -> list Todo) (dtotal : Z)
    (r : TodoListResponse) : TodoListResponse :=
  mkTodoListResponse (f (todos r)) (total r + dtotal) (page r) (limit r) (totalPages r).

(** [old.todos.map(todo => todo.id === id ? f(todo) : todo)] *)
Definition map_id (id : string) (f : Todo -> Todo) (l : list Todo) : list Todo :=
  map (fun todo => if decide (todo_id todo = id) then f todo else todo) l.

(** [onMutate]: the snapshots, then the optimistic write. *)
Definition onMutate (m : Mutation) (now : Z) (st : ClientState) : ClientState * Context :=
  let c := cache st in
  match m with
  | CreateTodo newTodo =>
      let previousTodos := getQueryData queryKeys.todos_lists c in
      (on_cache (setQueriesData queryKeys.todos_lists
                   (on_list (with_todos (cons (optimisticTodo newTodo now)) 1))) st,
       mkContext None previousTodos)
  | UpdateTodo id data =>
      let previousTodo := getQueryData (queryKeys.todos_detail id) c in
      let previousTodos := getQueryData queryKeys.todos_lists c in
      (on_cache (setQueriesData queryKeys.todos_lists
                   (on_list (with_todos (map_id id (merge data now)) 0)))
         (on_cache (setQueryData (queryKeys.todos_detail id)
                      (on_todo (merge data now))) st),
       mkContext previousTodo previousTodos)
  | DeleteTodo id =>
      let previousTodos := getQueryData queryKeys.todos_lists c in
      (on_cache (setQueriesData queryKeys.todos_lists
                   (on_list (with_todos
                               (List.filter (fun todo => negb (bool_decide (todo_id todo = id))))
                               (-1)))) st,
       mkContext None previousTodos)
  | ToggleTodo id =>
      let previousTodo := getQueryData (queryKeys.todos_detail id) c in
      let previousTodos := getQueryData queryKeys.todos_lists c in
      (on_cache (setQueriesData queryKeys.todos_lists
                   (on_list (with_todos (map_id id (toggled now)) 0)))
         (on_cache (setQueryData (queryKeys.todos_detail id)
                      (on_todo (toggled now))) st),
       mkContext previousTodo previousTodos)
  end.

(** The rollback of [onError]: [if (context?.previousTodo)] the detail
    query is set back, [if (context?.previousTodos)] every list query is
    set to that snapshot. *)
Definition rollback (m : Mutation) (context : Context) (c : QueryCache) : QueryCache :=
  let restore_lists c :=
    match previousTodos context with
    | Some snapshot => setQueriesData queryKeys.todos_lists (fun _ => Some snapshot) c
    | None => c
    end in
  let restore_detail id c :=
    match previousTodo context with
    | Some snapshot => setQueryData (queryKeys.todos_detail id) (fun _ => Some snapshot) c
    | None => c
    end in
  match m with
  | CreateTodo _ | DeleteTodo _ => restore_lists c
  | UpdateTodo id _ | ToggleTodo id => restore_lists (restore_detail id c)
  end.

(** [onError]: the rollback, then the error toast. *)
Definition onError (m : Mutation) (e : ApiClientError) (context : Context)
    (st : ClientState) : ClientState :=
  showError (message e) (on_cache (rollback m context) st).

(** [onSuccess]; [useToggleTodo] has none. *)
Definition onSuccess (m : Mutation) (st : ClientState) : ClientState :=
  match m with
  | CreateTodo _ => showSuccess "Todo created successfully" st
  | UpdateTodo _ _ => showSuccess "Todo updated successfully" st
  | DeleteTodo _ => showSuccess "Todo deleted successfully" st
  | ToggleTodo _ => st
  end.

(** [onSettled]: runs after [onSuccess] and after [onError] alike. *)
Definition onSettled (m : Mutation) (st : ClientState) : ClientState :=
  match m with
  | CreateTodo _ | DeleteTodo _ =>
      invalidateQueries queryKeys.stats_all
        (invalidateQueries queryKeys.todos_lists st)
  | UpdateTodo id _ | ToggleTodo id =>
      invalidateQueries queryKeys.stats_all
        (invalidateQueries queryKeys.todos_lists
           (invalidateQueries (queryKeys.todos_detail id) st))
  end.

(** One run of a mutation: [onMutate], the transport call, then
    [onSuccess] or [onError], then [onSettled]. *)
Definition mutate (m : Mutation) (now : Z) (result : TransportResult)
    (st : ClientState) : ClientState :=
  let '(st1, context) := onMutate m now st in
  match result with
  | Resolved => onSettled m (onSuccess m st1)
  | Rejected e => onSettled m (onError m e context st1)
  end.

(** [useDeleteCompleted]: no optimistic write; the lists and the stats are
    invalidated in [onSuccess]. *)
Definition deleteCompleted (result : ApiClientError + Z) (st : ClientState) : ClientState :=
  match result with
  | inr deleted =>
      invalidateQueries queryKeys.stats_all
        (invalidateQueries queryKeys.todos_lists
           (showSuccess (pretty deleted ++ " completed todo(s) deleted") st))
  | inl e => showError (message e) st
  end.

End Hooks.

(** ** Statements of the specification *)

(** The id whose detail query a mutation touches. *)
Definition target (m : Mutation) : option string :=
  match m with
  | UpdateTodo id _ | ToggleTodo id => Some id
  | CreateTodo _ | DeleteTodo _ => None
  end.

(** The keys that the settlement of a mutation names: the detail key of its
    target, the list prefix and the stats key. *)
Definition settled_keys (m : Mutation) : list QueryKey :=
  (match target m with
   | Some id => [queryKeys.todos_detail id]
   | None => []
   end ++ [queryKeys.todos_lists; queryKeys.stats_all])%list.

(** The cache that [onMutate] and then the rollback of [onError] leave. *)
Definition failed_cache (toISOString : Z -> string) (m : Mutation) (now : Z)
    (st : ClientState) : QueryCache :=
  rollback m (snd (onMutate toISOString m now st))
           (cache (fst (onMutate toISOString m now st))).

(** ** Sample data *)

Definition milk : Todo :=
  mkTodo "1" "Buy milk" None false medium None
    "2025-10-21T12:00:00.000Z" "2025-10-21T12:00:00.000Z".

Definition one_todo : TodoListResponse := mkTodoListResponse [milk] 1 1 50 1.

(** The cache after [useTodos()], [useTodo('1')] and [useStats()] have
    fetched. *)
Definition fetched_cache : QueryCache :=
  <[queryKeys.todos_list None := mkQueryState (Some (ListData one_todo)) false]>
    (<[queryKeys.todos_detail "1" := mkQueryState (Some (TodoData milk)) false]>
       (<[queryKeys.stats_all :=
            mkQueryState (Some (StatsData (mkTodoStats 1 0 1 0 1 0))) false]> ∅)).

Definition fetched : ClientState := mkClientState fetched_cache [] [].

Definition no_todo : TodoListResponse := mkTodoListResponse [] 0 1 50 0.

(** A cache that also has a query under the key of the list prefix
    itself, with an empty list. *)
Definition with_prefix_query : ClientState :=
  mkClientState
    (<[queryKeys.todos_lists := mkQueryState (Some (ListData no_todo)) false]> fetched_cache)
    [] [].

Definition unreachable : ApiClientError := mkApiClientError "Failed to fetch" 0 None.


End Client.

(** * The rest of the server routes *)

Module ServerExtra.
Import Server.

(** ** [createTodoSchema] and [POST /api/todos] *)

(** [CreateTodoInput]: [priority] and [completed] have defaults. *)
Record CreateTodoInput := mkCreateTodoInput {
  c_title : string;
  c_description : option string;
  c_priority : Priority;
  c_due_date : option string;
  c_completed : bool
}.

Section CreateSchema.

Variable default_message : ZodIssueCode -> string.
Variable is_datetime : string -> bool.

(** [z.string().min(1, 'Title is required').max(500, 'Title too long')] *)
Definition title_required (v : option Json) : list ZodIssue + string :=
  match v with
  | Some (JStr s) =>
      let len := utf16_length s in
      if len <? 1 then inl [mkIssue ["title"] too_small "Title is required"]
      else if 500 <? len then inl [mkIssue ["title"] too_big "Title too long"]
      else inr s
  | _ => inl [issue default_message ["title"] invalid_type]
  end.

(** [z.string().max(5000, 'Description too long').optional()] *)
Definition description_optional (v : option Json) : list ZodIssue + option string :=
  match v with
  | None => inr None
  | Some (JStr s) =>
      if 5000 <? utf16_length s
      then inl [mkIssue ["description"] too_big "Description too long"]
      else inr (Some s)
  | Some _ => inl [issue default_message ["description"] invalid_type]
  end.

(** [priorityEnum.default('medium')] *)
Definition priority_default (v : option Json) : list ZodIssue + Priority :=
  match v with
  | None => inr medium
  | Some (JStr s) =>
      match priority_of_string s with
      | Some p => inr p
      | None => inl [issue default_message ["priority"] invalid_enum_value]
      end
  | Some _ => inl [issue default_message ["priority"] invalid_type]
  end.

(** [z.string().datetime().optional()] *)
Definition due_date_optional (v : option Json) : list ZodIssue + option string :=
  match v with
  | None => inr None
  | Some (JStr s) =>
      if is_datetime s then inr (Some s)
      else inl [issue default_message ["due_date"] invalid_string]
  | Some _ => inl [issue default_message ["due_date"] invalid_type]
  end.

(** [z.boolean().default(false)] *)
Definition completed_default (v : option Json) : list ZodIssue + bool :=
  match v with
  | None => inr false
  | Some (JBool b) => inr b
  | Some _ => inl [issue default_message ["completed"] invalid_type]
  end.

(** [createTodoSchema.parse] *)
Definition createTodoSchema (body : Json) : list ZodIssue + CreateTodoInput :=
  match body with
  | JObj fields =>
      let t := title_required (fields !! "title") in
      let d := description_optional (fields !! "description") in
      let p := priority_default (fields !! "priority") in
      let dd := due_date_optional (fields !! "due_date") in
      let c := completed_default (fields !! "completed") in
      match t, d, p, dd, c with
      | inr t', inr d', inr p', inr dd', inr c' =>
          inr (mkCreateTodoInput t' d' p' dd' c')
      | _, _, _, _, _ =>
          inl (issues_of t ++ issues_of d ++ issues_of p ++ issues_of dd ++ issues_of c)%list
      end
  | _ => inl [issue default_message [] invalid_type]
  end.

End CreateSchema.

(** [s || null] on an optional string. *)
Definition text_or_null (s : option string) : option string :=
  match s with
  | Some x => if String.eqb x "" then None else Some x
  | None => None
  end.

(** The ids of a table. *)
Definition ids (t : Table) : list string := map row_id t.

Section MoreRoutes.

Variable timestamp_in : string -> option Z.
Variable table_check : string -> option string -> bool.
Variable db_message : DbError -> string.

(** The message of the database when an insert repeats a primary key; the
    error handler looks for 'duplicate key' in it. *)
Variable duplicate_message : string.

(** The row of [INSERT ... VALUES ($1, $2, $3, $4, $5) RETURNING *] with
    the parameters of the callback: [input.description || null],
    [input.due_date || null]; [id] is the identifier that the column
    default generates and [created_at], [updated_at] default to the
    instant of the insert. *)
Definition new_row (id : string) (now : Z) (input : CreateTodoInput) (due : option Z)
  : TodoRow :=
  mkTodoRow id (c_title input) (text_or_null (c_description input)) (c_completed input)
    (c_priority input) due now now.

(** The [due_date] parameter of the insert as the database reads it. *)
Definition insert_due_date (d : option string) : option (option Z) :=
  match text_or_null d with
  | None => Some None
  | Some s =>
      match timestamp_in s with
      | Some ts => Some (Some ts)
      | None => None
      end
  end.

(** The callback of the create route, on the validated body.  The CHECK
    constraints are evaluated before the primary key index is. *)
Definition create_todo (t : Table) (now : Z) (id : string) (input : CreateTodoInput)
  : Table * (Thrown + TodoRow) :=
  match insert_due_date (c_due_date input) with
  | None => (t, inl (db_error db_message datetime_out_of_range))
  | Some due =>
      let r := new_row id now input due in
      if negb (row_check table_check r) then (t, inl (db_error db_message check_violation))
      else if existsb (has_id id) t then (t, inl (ApiError (Some duplicate_message) None None))
      else ((t ++ [r])%list, inr r)
  end.

(** [GET /api/todos/:id]: the callback on the uuid that the database read
    from the id. *)
Definition get_todo (t : Table) (id : string) : Thrown + TodoRow :=
  match List.filter (has_id id) t with
  | [] => inl (createError "Todo not found" 404 None)
  | r :: _ => inr r
  end.

(** [DELETE /api/todos/:id]: [DELETE ... WHERE id = $1 RETURNING id]; 204
    with no body when a row was deleted. *)
Definition delete_todo (t : Table) (id : string) : Table * (Thrown + unit) :=
  match List.filter (has_id id) t with
  | [] => (t, inl (createError "Todo not found" 404 None))
  | _ :: _ => (List.filter (fun r => negb (has_id id r)) t, inr tt)
  end.

(** The body of the answer of [DELETE /api/todos]. *)
Record ClearResponse := mkClearResponse {
  deleted : Z;
  clear_message : string
}.

(** [DELETE /api/todos]: [DELETE ... WHERE completed = true];
    [result.rowCount || 0] is the number of rows deleted. *)
Definition clear_completed (t : Table) : Table * ClearResponse :=
  let n := count row_completed t in
  (List.filter (fun r => negb (row_completed r)) t,
   mkClearResponse n ("Deleted " ++ pretty n ++ " completed todos")).

End MoreRoutes.

(** ** The callbacks of the routes with an [:id] segment, on the text of
    the id *)

Section IdCallbacks.

Variable timestamp_in : string -> option Z.
Variable table_check : string -> option string -> bool.
Variable db_message : DbError -> string.

(** The uuid that the database reads from the text of a parameter compared
    with the [id] column, written as the ids of the rows are; [None] when
    it refuses the text. *)
Variable uuid_in : string -> option string.

(** The error that the driver throws when the database refuses the id. *)
Definition uuid_refused (id : string) : Thrown := db_error db_message (uuid_syntax id).

(** The callback of [GET /api/todos/:id]. *)
Definition get_callback (t : Table) (id : string) : Thrown + TodoRow :=
  match uuid_in id with
  | Some u => get_todo t u
  | None => inl (uuid_refused id)
  end.

(** The callback of [DELETE /api/todos/:id]. *)
Definition delete_callback (t : Table) (id : string) : Table * (Thrown + unit) :=
  match uuid_in id with
  | Some u => delete_todo t u
  | None => (t, inl (uuid_refused id))
  end.

(** The callback of [POST /api/todos/:id/toggle]. *)
Definition toggle_callback (t : Table) (now : Z) (id : string)
  : Table * (Thrown + TodoRow) :=
  match uuid_in id with
  | Some u => toggle_todo table_check db_message t now u
  | None => (t, inl (uuid_refused id))
  end.

(** The callback of [PATCH /api/todos/:id], on the validated body.  The id
    is the last parameter of the statement: the database reads the due
    date before it. *)
Definition update_callback (t : Table) (now : Z) (id : string) (input : UpdateTodoInput)
  : Table * (Thrown + TodoRow) :=
  match updates input with
  | [] => (t, inl (createError "No fields to update" 400 None))
  | _ =>
      match due_date_param timestamp_in (u_due_date input) with
      | None => (t, inl (db_error db_message datetime_out_of_range))
      | Some _ =>
          match uuid_in id with
          | Some u => update_todo timestamp_in table_check db_message t now u input
          | None => (t, inl (uuid_refused id))
          end
      end
  end.

End IdCallbacks.

(** ** The order of a list answer *)

(** What [ORDER BY created_at DESC] promises of its result: the rows, none
    before a newer one.  Among rows of equal [created_at] the database is
    free. *)
Definition ordered_by_created_at_desc (rows result : list TodoRow) : Prop :=
  result ≡ₚ rows /\ StronglySorted newer_first result.

(** [LIMIT l OFFSET (p - 1) * l] on an ordered result. *)
Definition page_of (l p : Z) (ordered : list TodoRow) : list TodoRow :=
  limit_offset l ((p - 1) * l) ordered.

(** A request that writes to the table, as it would arrive behind the id
    validator of its route, with the uuid that the database reads from
    the id. *)
Inductive WriteRequest :=
| PostTodo (body : Json)
| PatchTodo (id : string) (body : Json)
| PostToggle (id : string)
| DeleteTodo (id : string)
| DeleteCompleted.

(** The response to one: an error response, or the status and body of the
    success: 201 and 200 with the row, 204 with no body, 200 with the
    count. *)
Inductive Answer :=
| Failed (e : ErrorResponse)
| Created (r : TodoRow)
| Ok (r : TodoRow)
| NoContent
| Cleared (c : ClearResponse).

Section MoreRequests.

Variable default_message : ZodIssueCode -> string.
Variable is_datetime : string -> bool.
Variable ilike : string -> string -> bool.
Variable timestamp_in : string -> option Z.
Variable table_check : string -> option string -> bool.
Variable db_message : DbError -> string.
Variable duplicate_message : string.

(** [validateBody(createTodoSchema)], the create callback, and the error
    handler; a created row is answered with status 201. *)
Definition post_todo (t : Table) (now : Z) (id : string) (body : Json)
  : Table * (ErrorResponse + TodoRow) :=
  match validate (createTodoSchema default_message is_datetime) body with
  | inl e => (t, inl (errorHandler e))
  | inr input =>
      match create_todo timestamp_in table_check db_message duplicate_message
              t now id input with
      | (t', inl e) => (t', inl (errorHandler e))
      | (t', inr r) => (t', inr r)
      end
  end.

(** The delete callback and the error handler. *)
Definition delete_request (t : Table) (id : string) : Table * (ErrorResponse + unit) :=
  match delete_todo t id with
  | (t', inl e) => (t', inl (errorHandler e))
  | (t', inr u) => (t', inr u)
  end.

(** The get callback and the error handler. *)
Definition get_request (t : Table) (id : string) : ErrorResponse + TodoRow :=
  match get_todo t id with
  | inl e => inl (errorHandler e)
  | inr r => inr r
  end.

(** The response to a request that writes. *)
Definition answer_of {A} (status : A -> Answer) (result : Table * (ErrorResponse + A))
  : Table * Answer :=
  match result with
  | (t, inl e) => (t, Failed e)
  | (t, inr a) => (t, status a)
  end.

(** The router on the requests that write: [now] is the instant of the
    statement and [fresh] the identifier that an insert would generate. *)
Definition serve (t : Table) (now : Z) (fresh : string) (req : WriteRequest)
  : Table * Answer :=
  match req with
  | PostTodo body => answer_of Created (post_todo t now fresh body)
  | PatchTodo id body =>
      answer_of Ok
        (patch_todo default_message is_datetime timestamp_in table_check db_message
           t now id body)
  | PostToggle id =>
      answer_of Ok (post_toggle table_check db_message t now id)
  | DeleteTodo id => answer_of (fun _ => NoContent) (delete_request t id)
  | DeleteCompleted =>
      let (t', c) := clear_completed t in (t', Cleared c)
  end.

(** The rows of page [p] of a list query: the [data] of the answer of the
    list callback, and no row when the callback fails. *)
Definition page_rows (t : Table) (q : ListTodosQuery) (p : Z) : list TodoRow :=
  match list_todos ilike db_message t
          (mkListTodosQuery (q_completed q) (q_priority q) (q_search q)
             (Some p) (q_limit q)) with
  | inr response => data response
  | inl _ => []
  end.

End MoreRequests.

(** ** Sample data *)

Definition three_rows : Table :=
  [sample_row "a" false 1; sample_row "b" true 2; sample_row "c" false 3].

Definition milk_fields : gmap string Json := {[ "title" := JStr "Buy milk" ]}.

Definition milk_body : Json := JObj milk_fields.

Definition bread_fields : gmap string Json := {[ "title" := JStr "Buy bread" ]}.

Definition bread_patch : UpdateTodoInput :=
  mkUpdateTodoInput (Some "Buy bread") None None None None.

Definition milk_input : CreateTodoInput :=
  mkCreateTodoInput "Buy milk" None medium None false.

Definition dup_message : string :=
  "duplicate key value violates unique constraint".

Definition milk_row : TodoRow := mkTodoRow "d" "Buy milk" None false medium None 9 9.

Definition empty_body : Json := JObj ∅.

Definition two_rows : Table := [sample_row "a" false 1; sample_row "c" false 3].

Definition bread_row : TodoRow := mkTodoRow "a" "Buy bread" None false medium None 1 7.

Definition bread_rows : Table := [bread_row; sample_row "b" true 2; sample_row "c" false 3].

(** [?completed=false&limit=5] as parsed. *)
Definition open_by_five : ListTodosQuery :=
  mkListTodosQuery (Some false) None None None (Some 5).


Definition not_found : ErrorResponse :=
  mkErrorResponse 404 (Some "Todo not found") None.

Fixpoint times (n : nat) (s : string) : string :=
  match n with
  | O => ""
  | S n' => s ++ times n' s
  end.

(** A title of 251 letters that take two bytes each. *)
Definition accented_title : string := times 251 "é".

Definition is_hex (c : ascii) : bool :=
  let n := Z.of_N (Ascii.N_of_ascii c) in
  ((48 <=? n) && (n <=? 57)) || ((65 <=? n) && (n <=? 70)) || ((97 <=? n) && (n <=? 102)).

Fixpoint hyphenated_from (i : nat) (s : string) : bool :=
  match s with
  | EmptyString => Nat.eqb i 36
  | String c rest =>
      (if Nat.eqb i 8 || Nat.eqb i 13 || Nat.eqb i 18 || Nat.eqb i 23
       then Ascii.eqb c "-" else is_hex c)
      && hyphenated_from (S i) rest
  end.

(** A stand-in for the database's reading of a uuid: the hyphenated form
    with digits of either case, written in lower case.  (The database
    reads other forms too.) *)
Definition hyphenated_uuid (s : string) : option string :=
  if hyphenated_from 0 s then Some (lower s) else None.

Definition upper_uuid : string := "0000000A-0000-0000-0000-00000000000B".

Definition lower_uuid : string := "0000000a-0000-0000-0000-00000000000b".

Definition other_uuid : string := "FFFFFFFF-FFFF-FFFF-FFFF-FFFFFFFFFFFF".

Definition uuid_row : TodoRow := sample_row lower_uuid false 1.

(** Two rows created at the same instant. *)
Definition twins : list TodoRow := [sample_row "a" false 1; sample_row "b" false 1].

End ServerExtra.

(** * The rest of the client *)

Module ClientExtra.
Import Client.

(** ** The retry rule of queries ([lib/queryClient.ts]) *)

(** An [ApiClientError] as the object that a callback receives: the
    properties that the class and [Error] set on it. *)
Definition error_object (e : ApiClientError) : Json :=
  JObj (<["name" := JStr "ApiClientError"]>
          (<["message" := JStr (message e)]>
             (<["statusCode" := JNum (statusCode e)]>
                (match details e with
                 | Some d => {["details" := d]}
                 | None => ∅
                 end)))).

(** [value?.name] for a member name that no array and no string has. *)
Definition optional_member (value : option Json) (name : string) : option Json :=
  match value with
  | Some (JObj members) => members !! name
  | _ => None
  end.

(** [status >= 400 && status < 500] on a number, a boolean, [null] or
    [undefined]; [None] on a value that the comparison would convert by
    other rules. *)
Definition is_client_error (status : option Json) : option bool :=
  match status with
  | None | Some JNull | Some (JBool _) => Some false
  | Some (JNum n) => Some ((400 <=? n) && (n <? 500))
  | Some _ => None
  end.

(** The [retry] callback of queries. *)
Definition retry (failureCount : Z) (error : Json) : option bool :=
  (fun refused : bool => if refused then false else failureCount <? 3)
    <$> is_client_error
          (optional_member (optional_member (Some error) "response") "status").

(** An error that carries the response, as other transport libraries
    throw. *)
Definition error_with_response (status : Z) : Json :=
  JObj {[ "response" := JObj {[ "status" := JNum status ]} ]}.

(** ** Toasts ([contexts/ToastContext.tsx]) *)

Inductive ToastType := toast_success | toast_error | toast_info | toast_warning.

Record Toast := mkToast {
  toast_id : string;
  toast_type : ToastType;
  toast_message : string;
  toast_duration : Z
}.

(** The state of the provider: the toasts on display, oldest first, and
    the timeouts that are pending, each with the id that it will remove. *)
Record ToastState := mkToastState {
  shown : list Toast;
  timeouts : list string
}.

(** The updater of [removeToast(id)]. *)
Definition without (id : string) (toasts : list Toast) : list Toast :=
  List.filter (fun toast => negb (bool_decide (toast_id toast = id))) toasts.

(** [removeToast(id)] *)
Definition removeToast (id : string) (st : ToastState) : ToastState :=
  mkToastState (without id (shown st)) (timeouts st).

(** [showToast(type, message, duration = 5000)]: [now] is the reading of
    [Date.now()] and [random] the text of [Math.random()]. *)
Definition showToast (type : ToastType) (message : string) (duration : option Z)
    (now : Z) (random : string) (st : ToastState) : ToastState :=
  let duration := default 5000 duration in
  let id := "toast-" ++ pretty now ++ "-" ++ random in
  mkToastState (shown st ++ [mkToast id type message duration])
    (if 0 <? duration then timeouts st ++ [id] else timeouts st).

(** The pending timeout at position [i] runs: [removeToast(id)]. *)
Definition timeout_runs (i : nat) (st : ToastState) : ToastState :=
  match timeouts st !! i with
  | Some id => mkToastState (without id (shown st)) (delete i (timeouts st))
  | None => st
  end.

(** What happens to the provider. *)
Inductive ToastEvent :=
| Show (type : ToastType) (message : string) (duration : option Z) (now : Z)
       (random : string)
| Remove (id : string)
| TimeoutRuns (i : nat).

Definition toast_step (st : ToastState) (ev : ToastEvent) : ToastState :=
  match ev with
  | Show type message duration now random =>
      showToast type message duration now random st
  | Remove id => removeToast id st
  | TimeoutRuns i => timeout_runs i st
  end.

(** The state after a run of events from the start of the provider. *)
Definition toast_run (events : list ToastEvent) : ToastState :=
  fold_left toast_step events (mkToastState [] []).

(** Every toast on display that has a positive duration has a pending
    timeout for its id. *)
Definition will_disappear (st : ToastState) : Prop :=
  forall toast, toast ∈ shown st -> 0 < toast_duration toast ->
    toast_id toast ∈ timeouts st.

End ClientExtra.

(** * The standalone front end *)

Module Helpers.
Import Client.

(** ** [utils/helpers.ts] *)

(** [TodoFilter]: ['all' | 'active' | 'completed']. *)
Inductive TodoFilter := All | Active | Completed.

(** [filterTodos(todos, filter)] *)
Definition filterTodos (todos : list Todo) (filter : TodoFilter) : list Todo :=
  match filter with
  | Active => List.filter (fun todo => negb (completed todo)) todos
  | Completed => List.filter (fun todo => completed todo) todos
  | All => todos
  end.

(** [TodoStats] of the front end. *)
Record PriorityCounts := mkPriorityCounts {
  count_low : Z;
  count_medium : Z;
  count_high : Z
}.

Record AppStats := mkAppStats {
  app_total : Z;
  app_completed : Z;
  app_active : Z;
  app_byPriority : PriorityCounts
}.

(** [acc[todo.priority]++] *)
Definition increment (acc : PriorityCounts) (p : Priority) : PriorityCounts :=
  match p with
  | low => mkPriorityCounts (count_low acc + 1) (count_medium acc) (count_high acc)
  | medium => mkPriorityCounts (count_low acc) (count_medium acc + 1) (count_high acc)
  | high => mkPriorityCounts (count_low acc) (count_medium acc) (count_high acc + 1)
  end.

(** [calculateStats(todos)] *)
Definition calculateStats (todos : list Todo) : AppStats :=
  let done := Z.of_nat (length (List.filter (fun t => completed t) todos)) in
  let active := Z.of_nat (length todos) - done in
  let byPriority :=
    fold_left (fun acc todo => increment acc (priority todo)) todos
      (mkPriorityCounts 0 0 0) in
  mkAppStats (Z.of_nat (length todos)) done active byPriority.

Section Strings.

(** [String.prototype.trim] and [String.prototype.toLowerCase]. *)
Variable trim : string -> string.
Variable toLowerCase : string -> string.

(** The test of [searchTodos] on a todo; a todo without description does
    not match by it. *)
Definition search_hit (lowerQuery : string) (todo : Todo) : bool :=
  includes (toLowerCase (title todo)) lowerQuery
  || match description todo with
     | Some d => includes (toLowerCase d) lowerQuery
     | None => false
     end.

(** [searchTodos(todos, query)]: the query is trimmed for the test of
    emptiness only. *)
Definition searchTodos (todos : list Todo) (query : string) : list Todo :=
  if String.eqb (trim query) "" then todos
  else List.filter (search_hit (toLowerCase query)) todos.

End Strings.

Section Dates.

(** [new Date(s).getTime()]: [None] for a string that is no date. *)
Variable Date_parse : string -> option Z.

(** [date.getFullYear()] in the time zone of the browser. *)
Variable getFullYear : Z -> Z.

(** [date.toLocaleDateString('en-US', ...)], with or without the year. *)
Variable toLocaleDateString : Z -> bool -> string.

(** The milliseconds of a day, [1000 * 60 * 60 * 24]. *)
Definition day : Z := 1000 * 60 * 60 * 24.

(** [Math.ceil(diffMs / day)], exact for instants that [Date] can hold. *)
Definition diffDays (date now : Z) : Z := Server.Math_ceil_div (date - now) day.

(** [formatDate(dateString)] when the clock reads [now]. *)
Definition formatDate (dateString : string) (now : Z) : string :=
  match Date_parse dateString with
  | None => "Invalid Date"
  | Some date =>
      let d := diffDays date now in
      if d =? 0 then "Today"
      else if d =? 1 then "Tomorrow"
      else if d =? -1 then "Yesterday"
      else if (0 <? d) && (d <=? 7) then "In " ++ pretty d ++ " days"
      else if (d <? 0) && (-7 <=? d) then pretty (Z.abs d) ++ " days ago"
      else toLocaleDateString date (negb (getFullYear date =? getFullYear now))
  end.

(** [isOverdue(todo)] when the clock reads [now]. *)
Definition isOverdue (todo : Todo) (now : Z) : bool :=
  match due_date todo with
  | None => false
  | Some s =>
      if String.eqb s "" || completed todo then false
      else
        match Date_parse s with
        | Some date => date <? now
        | None => false
        end
  end.

(** The due date badge of [TodoItem]: none without a due date, else the
    overdue mark and the label. *)
Definition due_badge (todo : Todo) (now : Z) : option (bool * string) :=
  match due_date todo with
  | None => None
  | Some s =>
      if String.eqb s "" then None
      else Some (isOverdue todo now, formatDate s now)
  end.

End Dates.

(** ** [TodoApp] *)

(** [CreateTodoInput] of the form. *)
Record CreateTodoInput := mkCreateTodoInput {
  input_title : string;
  input_description : option string;
  input_priority : Priority;
  input_due_date : option string
}.

Section Handlers.

Variable trim : string -> string.
Variable toLowerCase : string -> string.
Variable toISOString : Z -> string.

(** [handleCreate]: [id] is the value of [crypto.randomUUID()]. *)
Definition handleCreate (data : CreateTodoInput) (id : string) (now : Z)
    (prev : list Todo) : list Todo :=
  mkTodo id (input_title data) (input_description data) false (input_priority data)
    (input_due_date data) (toISOString now) (toISOString now)
  :: prev.

(** [handleDelete] *)
Definition handleDelete (id : string) (prev : list Todo) : list Todo :=
  List.filter (fun todo => negb (bool_decide (todo_id todo = id))) prev.

(** [handleToggle] *)
Definition handleToggle (id : string) (now : Z) (prev : list Todo) : list Todo :=
  map_id id (toggled toISOString now) prev.

(** [handleClearCompleted] *)
Definition handleClearCompleted (prev : list Todo) : list Todo :=
  List.filter (fun todo => negb (completed todo)) prev.

(** [displayedTodos] *)
Definition displayedTodos (todos : list Todo) (filter : TodoFilter) (searchQuery : string)
  : list Todo :=
  searchTodos trim toLowerCase (filterTodos todos filter) searchQuery.

(** [hasCompleted] of [TodoList], which shows the button that calls
    [handleClearCompleted]. *)
Definition hasCompleted (displayed : list Todo) : bool :=
  existsb (fun todo => completed todo) displayed.

End Handlers.

(** ** Sample data *)

(** A stand-in for the date parser: the milliseconds in decimal. *)
Definition decimal_date (s : string) : option Z := Server.Number s.

Definition no_year (_ : Z) : Z := 0.

Definition no_locale (_ : Z) (_ : bool) : string := "".

End Helpers.

(** * Properties of the server *)

Module ServerFacts.
Import Server.

(** ** The global error handler *)

Lemma status_or_500_unset statusCode :
  statusCode = None \/ statusCode = Some 500 -> status_or_500 statusCode = 500.
Proof. intros [-> | ->]; reflexivity. Qed.

(** C10.  An error that is no validation error, whose message names neither
    a duplicate key nor a foreign key, and whose status code is 500 or
    unset, is answered with status 500 and the fixed text
    'Internal server error'; the answer is the same whatever the message of
    the error. *)
Theorem errorHandler_hides_internal_message
    (message : option string) (statusCode : option Z) (details : option Json) :
  message_includes message "duplicate key" = false ->
  message_includes message "violates foreign key" = false ->
  statusCode = None \/ statusCode = Some 500 ->
  res_status (errorHandler (ApiError message statusCode details)) = 500
  /\ res_error (errorHandler (ApiError message statusCode details))
     = Some "Internal server error"
  /\ forall message',
       message_includes message' "duplicate key" = false ->
       message_includes message' "violates foreign key" = false ->
       errorHandler (ApiError message' statusCode details)
       = errorHandler (ApiError message statusCode details).
Proof.
  intros Hdup Hfk Hcode.
  pose proof (status_or_500_unset statusCode Hcode) as Hs.
  unfold errorHandler. rewrite Hdup, Hfk, Hs. cbn.
  repeat split.
  intros message' Hdup' Hfk'. rewrite Hdup', Hfk'. reflexivity.
Qed.

Lemma errorHandler_hides_internal_message_witness :
  res_error (errorHandler
    (ApiError (Some "connect ECONNREFUSED 10.0.0.5:5432") None None))
  = Some "Internal server error".
Proof.
  apply (errorHandler_hides_internal_message
           (Some "connect ECONNREFUSED 10.0.0.5:5432") None None);
    [ reflexivity | reflexivity | left; reflexivity ].
Defined.

(** ** The update and toggle routes *)

Section Writes.

Variable default_message : ZodIssueCode -> string.
Variable is_datetime : string -> bool.
Variable timestamp_in : string -> option Z.
Variable table_check : string -> option string -> bool.
Variable db_message : DbError -> string.

Lemma has_id_on_id id f r :
  row_id (f r) = row_id r -> has_id id (on_id id f r) = has_id id r.
Proof.
  intros Hid. unfold on_id. destruct (has_id id r) eqn:Hr; [|exact Hr].
  unfold has_id in *. by rewrite Hid.
Qed.

(** The rows returned by an update that keeps ids are the images of the
    rows that had the id. *)
Lemma filter_has_id_map id f (t : Table) :
  (forall r, row_id (f r) = row_id r) ->
  List.filter (has_id id) (map (on_id id f) t) = map f (List.filter (has_id id) t).
Proof.
  intros Hid. induction t as [|r t IH]; [reflexivity|].
  cbn [map List.filter]. rewrite has_id_on_id by apply Hid.
  destruct (has_id id r) eqn:Hr; [|exact IH].
  cbn [map]. rewrite IH. unfold on_id. by rewrite Hr.
Qed.

Lemma update_where_id_unfold f id (t : Table) :
  (forall r, row_id (f r) = row_id r) ->
  update_where_id table_check f id t
  = if forallb (row_check table_check) (map f (List.filter (has_id id) t))
    then inr (map (on_id id f) t, map f (List.filter (has_id id) t))
    else inl check_violation.
Proof.
  intros Hid. unfold update_where_id.
  by rewrite (filter_has_id_map id f t Hid).
Qed.

(** What a successful write leaves behind, for any update function that
    keeps ids. *)
Lemma write_shape f id (t t' : Table) (r : TodoRow) (rows : list TodoRow) :
  (forall x, row_id (f x) = row_id x) ->
  update_where_id table_check f id t = inr (t', r :: rows) ->
  t' = map (on_id id f) t
  /\ exists old, old ∈ t /\ row_id old = id /\ r = f old.
Proof.
  intros Hid. rewrite (update_where_id_unfold f id t Hid).
  destruct (forallb _ _); [|discriminate].
  intros [= <- Hrows]. split; [reflexivity|].
  destruct (List.filter (has_id id) t) as [|old olds] eqn:Hf; [discriminate|].
  cbn [map] in Hrows. injection Hrows as <- _.
  assert (Hin : In old (List.filter (has_id id) t)) by (rewrite Hf; left; reflexivity).
  apply filter_In in Hin as [Hin Hhit].
  exists old. split; [by apply list_elem_of_In|].
  split; [|reflexivity].
  unfold has_id in Hhit. by apply bool_decide_eq_true in Hhit.
Qed.

Lemma lookup_on_id id f (t : Table) i old :
  t !! i = Some old ->
  map (on_id id f) t !! i = Some (on_id id f old).
Proof.
  intros H. change (map (on_id id f) t) with (on_id id f <$> t).
  by rewrite list_lookup_fmap, H.
Qed.

Lemma set_columns_only_changed input due now old :
  (u_due_date input = None -> due = None) ->
  only_changed (updates input) now old (set_columns input due now old).
Proof.
  intros Hdue. unfold only_changed, set_columns, updates. cbn.
  repeat split; intros Hnot.
  - destruct (u_title input); [|reflexivity].
    exfalso. apply Hnot. cbn. set_solver.
  - destruct (u_description input); [|reflexivity].
    exfalso. apply Hnot. cbn. set_solver.
  - destruct (u_priority input); [|reflexivity].
    exfalso. apply Hnot. cbn. set_solver.
  - destruct (u_due_date input) eqn:Hd; [|by rewrite Hdue].
    exfalso. apply Hnot. cbn. set_solver.
  - destruct (u_completed input); [|reflexivity].
    exfalso. apply Hnot. cbn. set_solver.
Qed.

(** The columns of the patch take the values of the patch. *)
Lemma set_columns_takes_patch input due now old :
  (forall x, u_title input = Some x -> row_title (set_columns input due now old) = x)
  /\ (forall x, u_description input = Some x ->
       row_description (set_columns input due now old) = x)
  /\ (forall x, u_priority input = Some x ->
       row_priority (set_columns input due now old) = x)
  /\ (forall x, u_completed input = Some x ->
       row_completed (set_columns input due now old) = x)
  /\ (forall x, due = Some x -> row_due_date (set_columns input due now old) = x).
Proof. unfold set_columns. cbn. repeat split; intros x ->; reflexivity. Qed.

Lemma set_toggled_only_changed now old :
  only_changed ["completed"] now old (set_toggled now old).
Proof.
  unfold only_changed, set_toggled. cbn.
  repeat split; try reflexivity.
  intros Hnot. exfalso. apply Hnot. set_solver.
Qed.

Lemma due_date_param_absent input due :
  due_date_param timestamp_in (u_due_date input) = Some due ->
  u_due_date input = None -> due = None.
Proof. intros H Hn. rewrite Hn in H. cbn in H. congruence. Qed.

(** The schema reads the five members it declares and no other: a member
    [updated_at] of the body changes nothing. *)
Lemma updateTodoSchema_ignores_updated_at (fields : gmap string Json) (v : Json) :
  updateTodoSchema default_message is_datetime (JObj (<["updated_at" := v]> fields))
  = updateTodoSchema default_message is_datetime (JObj fields).
Proof.
  unfold updateTodoSchema.
  by rewrite !lookup_insert_ne.
Qed.

(** Behind the id validator, a patch that has none of the five members the
    schema declares is answered with status 400 and the error 'No fields to
    update', and the table is left as it was. *)
Theorem patch_without_fields_is_rejected
    (fields : gmap string Json) (t : Table) (now : Z) (id : string) :
  fields !! "title" = None ->
  fields !! "description" = None ->
  fields !! "priority" = None ->
  fields !! "due_date" = None ->
  fields !! "completed" = None ->
  patch_todo default_message is_datetime timestamp_in table_check db_message
    t now id (JObj fields)
  = (t, inl (mkErrorResponse 400 (Some "No fields to update") None)).
Proof.
  intros Ht Hd Hp Hdd Hc.
  unfold patch_todo, validate, updateTodoSchema.
  rewrite Ht, Hd, Hp, Hdd, Hc. reflexivity.
Qed.

(** Behind the id validator: after a write of the update or the toggle
    callback, every row with another id is
    as it was, and a row with the id differs from its old self at most in
    the columns of the patch (for a toggle: in [completed]) and in
    [updated_at], which is the instant of the write; the row returned is
    such a row.  A member [updated_at] of the request body has no effect
    on the parsed patch. *)
Theorem write_changes_only_patch_and_updated_at
    (w : Write) (t t' : Table) (now : Z) (id : string) (r : TodoRow) :
  write_todo timestamp_in table_check db_message w t now id = (t', inr r) ->
  length t' = length t
  /\ (forall i old, t !! i = Some old ->
        exists new, t' !! i = Some new
          /\ (row_id old <> id -> new = old)
          /\ (row_id old = id -> only_changed (written_columns w) now old new))
  /\ (exists old, old ∈ t /\ row_id old = id
        /\ only_changed (written_columns w) now old r)
  /\ (forall fields v,
        updateTodoSchema default_message is_datetime (JObj (<["updated_at" := v]> fields))
        = updateTodoSchema default_message is_datetime (JObj fields)).
Proof.
  intros Hw.
  assert (exists f, (forall x, row_id (f x) = row_id x)
            /\ (forall old, only_changed (written_columns w) now old (f old))
            /\ exists rows, update_where_id table_check f id t = inr (t', r :: rows))
    as (f & Hid & Hchg & rows & Hupd).
  { destruct w as [input|]; cbn in Hw.
    - unfold update_todo in Hw.
      destruct (updates input) eqn:Hu; [discriminate|].
      destruct (due_date_param timestamp_in (u_due_date input)) as [due|] eqn:Hdue;
        [|discriminate].
      exists (set_columns input due now). split; [reflexivity|]. split.
      + intros old. apply set_columns_only_changed.
        by apply due_date_param_absent.
      + destruct (update_where_id _ _ _ _) as [e|[t1 [|r1 rows]]];
          try discriminate.
        injection Hw as -> ->. by exists rows.
    - unfold toggle_todo in Hw.
      exists (set_toggled now). split; [reflexivity|]. split.
      + intros old. apply set_toggled_only_changed.
      + destruct (update_where_id _ _ _ _) as [e|[t1 [|r1 rows]]];
          try discriminate.
        injection Hw as -> ->. by exists rows. }
  destruct (write_shape f id t t' r rows Hid Hupd) as [-> (old & Hin & Hold & ->)].
  split; [by rewrite length_map|].
  split.
  { intros i old' Hi. exists (on_id id f old').
    split; [by apply lookup_on_id|].
    unfold on_id, has_id. split; intros H.
    - by rewrite bool_decide_eq_false_2.
    - rewrite bool_decide_eq_true_2 by done. apply Hchg. }
  split.
  { exists old. split; [done|]. split; [done|]. apply Hchg. }
  intros fields v. apply updateTodoSchema_ignores_updated_at.
Qed.

(** *** Toggling twice *)

Lemma find_filter_head (p : TodoRow -> bool) (t : Table) r0 :
  List.find p t = Some r0 -> exists rest, List.filter p t = r0 :: rest.
Proof.
  induction t as [|r t IH]; [discriminate|].
  cbn. destruct (p r); [|exact IH].
  intros [= ->]. eauto.
Qed.

Lemma row_check_set_toggled now r :
  row_check table_check (set_toggled now r) = row_check table_check r.
Proof. reflexivity. Qed.

Lemma forallb_row_check_on_id id now (t : Table) :
  forallb (row_check table_check) (map (on_id id (set_toggled now)) t)
  = forallb (row_check table_check) t.
Proof.
  induction t as [|r t IH]; [reflexivity|].
  cbn [map forallb]. rewrite IH. f_equal.
  unfold on_id. by destruct (has_id id r).
Qed.

Lemma forallb_row_check_filter (p : TodoRow -> bool) now (t : Table) :
  forallb (row_check table_check) t = true ->
  forallb (row_check table_check) (map (set_toggled now) (List.filter p t)) = true.
Proof.
  induction t as [|r t IH]; [reflexivity|].
  cbn [forallb List.filter]. intros [Hr Ht]%andb_prop.
  destruct (p r); [|by apply IH].
  cbn [map forallb]. rewrite row_check_set_toggled, Hr. by apply IH.
Qed.

(** A toggle of an id that the table has, on a table whose rows satisfy
    the constraints, succeeds and returns the first such row, toggled. *)
Lemma toggle_todo_ok (t : Table) now id r0 rest :
  forallb (row_check table_check) t = true ->
  List.filter (has_id id) t = r0 :: rest ->
  toggle_todo table_check db_message t now id
  = (map (on_id id (set_toggled now)) t, inr (set_toggled now r0)).
Proof.
  intros Hchk Hf. unfold toggle_todo.
  rewrite update_where_id_unfold by reflexivity.
  rewrite forallb_row_check_filter by exact Hchk.
  by rewrite Hf.
Qed.

Lemma completed_toggled_twice id now1 now2 r :
  row_completed (on_id id (set_toggled now2) (on_id id (set_toggled now1) r))
  = row_completed r.
Proof.
  unfold on_id at 2. destruct (has_id id r) eqn:Hr.
  - unfold on_id. change (has_id id (set_toggled now1 r)) with (has_id id r).
    rewrite Hr. cbn. apply negb_involutive.
  - unfold on_id. by rewrite Hr.
Qed.

(** Behind the id validator: on a table whose rows satisfy the
    constraints, two runs of the toggle callback in
    sequence on an id that the table has both succeed; the first returns
    the row with [completed] negated, the second returns it with
    [completed] as it was at the start, and after both every row of the
    table has the [completed] it started with. *)
Theorem toggle_twice_restores_completed
    (t : Table) (id : string) (now1 now2 : Z) (r0 : TodoRow) :
  forallb (row_check table_check) t = true ->
  List.find (has_id id) t = Some r0 ->
  exists t1 r1 t2 r2,
    toggle_todo table_check db_message t now1 id = (t1, inr r1)
    /\ toggle_todo table_check db_message t1 now2 id = (t2, inr r2)
    /\ row_completed r1 = negb (row_completed r0)
    /\ row_completed r2 = row_completed r0
    /\ map row_completed t2 = map row_completed t
    /\ map row_id t2 = map row_id t.
Proof.
  intros Hchk Hfind.
  destruct (find_filter_head _ _ _ Hfind) as [rest Hf].
  set (f1 := set_toggled now1). set (f2 := set_toggled now2).
  exists (map (on_id id f1) t), (f1 r0),
         (map (on_id id f2) (map (on_id id f1) t)), (f2 (f1 r0)).
  split; [by apply (toggle_todo_ok t now1 id r0 rest)|].
  split.
  { apply (toggle_todo_ok _ now2 id (f1 r0) (map f1 rest)).
    - unfold f1. by rewrite forallb_row_check_on_id.
    - rewrite filter_has_id_map by reflexivity. by rewrite Hf. }
  split; [reflexivity|].
  split; [cbn; apply negb_involutive|].
  rewrite !map_map. split; apply map_ext; intros r.
  - apply completed_toggled_twice.
  - unfold on_id. by repeat destruct (has_id _ _).
Qed.

End Writes.

(** The id validator, as registered, refuses the params object of every
    request, whatever the path segment; the uuid test is reached only on a
    string. *)
Remark validateParams_uuid_refuses default_message is_uuid (id : string) :
  validateParams_uuid default_message is_uuid id
  = inl (ZodError [mkIssue [] invalid_type (default_message invalid_type)]).
Proof. reflexivity. Qed.

(** ** The routes with an [:id] segment as they are registered *)

Lemma id_route_refuses {A} (default_message : ZodIssueCode -> string)
    (is_uuid : string -> bool) (rest : string -> Table * (ErrorResponse + A))
    (t : Table) (id : string) :
  id_route default_message is_uuid rest t id
  = (t, inl (validation_failed default_message)).
Proof.
  unfold id_route. by rewrite validateParams_uuid_refuses.
Qed.

(** C5, at the route as registered.  The update route answers every
    request with the error of its id validator, status 400 and 'Validation
    failed', and writes nothing: an empty patch sent to the id of a row is
    not answered with 'No fields to update', which is the answer of the
    chain behind the validator, where no request arrives. *)
Theorem patch_route_refuses_before_the_patch_is_read
    (default_message : ZodIssueCode -> string) (is_datetime is_uuid : string -> bool)
    (timestamp_in : string -> option Z) (table_check : string -> option string -> bool)
    (db_message : DbError -> string)
    (t : Table) (now : Z) (id : string) (body : Json) :
  patch_route default_message is_datetime is_uuid timestamp_in table_check db_message
    t now id body
  = (t, inl (validation_failed default_message))
  /\ patch_route default_message is_datetime is_uuid timestamp_in table_check
       db_message [nil_row] 7 nil_uuid empty_patch
     = ([nil_row], inl (validation_failed default_message))
  /\ res_error (validation_failed default_message) <> Some "No fields to update"
  /\ patch_todo default_message is_datetime timestamp_in table_check db_message
       [nil_row] 7 nil_uuid empty_patch
     = ([nil_row], inl (mkErrorResponse 400 (Some "No fields to update") None)).
Proof.
  split; [apply id_route_refuses|]. split; [apply id_route_refuses|].
  split; [discriminate|reflexivity].
Qed.



Lemma patch_without_fields_is_rejected_witness :
  patch_todo no_message any_datetime any_timestamp no_check no_db_message
    [sample_row "a" false 1] 5 "a" (JObj {[ "note" := JStr "x" ]})
  = ([sample_row "a" false 1], inl (mkErrorResponse 400 (Some "No fields to update") None)).
Proof.
  apply (patch_without_fields_is_rejected no_message any_datetime any_timestamp
           no_check no_db_message {[ "note" := JStr "x" ]});
    reflexivity.
Defined.

Lemma write_changes_only_patch_and_updated_at_witness :
  exists old,
    old ∈ [sample_row "a" false 1; sample_row "b" false 2]
    /\ row_id old = "b"
    /\ only_changed ["title"] 7 old
         (mkTodoRow "b" "Buy bread" None false medium None 2 7).
Proof.
  pose proof (write_changes_only_patch_and_updated_at no_message any_datetime
                any_timestamp no_check no_db_message
                (Patch (mkUpdateTodoInput (Some "Buy bread") None None None None))
                [sample_row "a" false 1; sample_row "b" false 2]
                [sample_row "a" false 1; mkTodoRow "b" "Buy bread" None false medium None 2 7]
                7 "b" (mkTodoRow "b" "Buy bread" None false medium None 2 7)
                eq_refl) as (_ & _ & H & _).
  exact H.
Defined.

Lemma toggle_twice_restores_completed_witness :
  exists t1 r1 t2 r2,
    toggle_todo no_check no_db_message
      [sample_row "a" false 1; sample_row "b" true 2] 7 "b" = (t1, inr r1)
    /\ toggle_todo no_check no_db_message t1 9 "b" = (t2, inr r2)
    /\ row_completed r1 = negb true
    /\ row_completed r2 = true
    /\ map row_completed t2 = [false; true]
    /\ map row_id t2 = ["a"; "b"].
Proof.
  apply (toggle_twice_restores_completed no_check no_db_message
           [sample_row "a" false 1; sample_row "b" true 2] "b" 7 9
           (sample_row "b" true 2));
    reflexivity.
Defined.

(** ** The stats route *)

Section StatsFacts.

Lemma count_le_length (cond : TodoRow -> bool) (t : Table) :
  0 <= count cond t <= Z.of_nat (length t).
Proof.
  unfold count. pose proof (filter_length_le cond t). lia.
Qed.

(** [completed + incomplete] is [total]. *)
Lemma stats_counts_add_up (t : Table) (now : Z) :
  stats_completed (get_stats t now) + stats_incomplete (get_stats t now)
  = stats_total (get_stats t now).
Proof. cbn. lia. Qed.

(** The rate of an empty table is 0. *)
Lemma stats_rate_of_empty_table (now : Z) :
  stats_completionRate (get_stats [] now) = Some 0.
Proof. reflexivity. Qed.

(** A completed row is never overdue, and a row is overdue only when its
    due date is before [now]. *)
Lemma is_overdue_spec (now : Z) (r : TodoRow) :
  is_overdue now r = true
  <-> (exists d, row_due_date r = Some d /\ d < now) /\ row_completed r = false.
Proof.
  unfold is_overdue. destruct (row_due_date r) as [d|].
  - rewrite andb_true_iff, Z.ltb_lt, negb_true_iff. split.
    + intros [Hd Hc]. eauto.
    + intros [(d' & [= <-] & Hd) Hc]. done.
  - split; [discriminate|]. by intros [(d & Hd & _) _].
Qed.

(** The overdue count is at most the incomplete count. *)
Lemma stats_overdue_le_incomplete (t : Table) (now : Z) :
  stats_overdue (get_stats t now) <= stats_incomplete (get_stats t now).
Proof.
  cbn. unfold count. induction t as [|r t IH]; [cbn; lia|].
  cbn [List.filter]. unfold is_overdue at 1.
  destruct (row_completed r), (row_due_date r) as [d|];
    try destruct (d <? now); cbn [andb negb length] in *; lia.
Qed.

(** C7, at the table that shows the defect.  With 23 of 40 rows
    completed the route reports a completion rate of 57: the double
    nearest to 23/40 times 100 is just below 57.5.  The exact value of
    100*23/40 is 57.5, which rounds to 58. *)
Theorem stats_rate_of_23_in_40 :
  stats_total (get_stats forty_rows 0) = 40
  /\ stats_completed (get_stats forty_rows 0) = 23
  /\ stats_completionRate (get_stats forty_rows 0) = Some 57
  /\ spec_completion_rate 23 40 = 58.
Proof. vm_compute. repeat split. Qed.

End StatsFacts.

(** ** The list route *)

Section TableFacts.

Lemma insert_desc_Permutation r (rows : list TodoRow) :
  insert_desc r rows ≡ₚ r :: rows.
Proof.
  induction rows as [|r' rows IH]; [reflexivity|].
  cbn. destruct (row_created_at r' <=? row_created_at r); [reflexivity|].
  rewrite IH. apply Permutation_swap.
Qed.

(** Ordering keeps the rows. *)
Lemma order_by_created_at_desc_Permutation (rows : list TodoRow) :
  order_by_created_at_desc rows ≡ₚ rows.
Proof.
  induction rows as [|r rows IH]; [reflexivity|].
  cbn. rewrite insert_desc_Permutation. by rewrite IH.
Qed.

Lemma insert_desc_sorted r (rows : list TodoRow) :
  StronglySorted newer_first rows -> StronglySorted newer_first (insert_desc r rows).
Proof.
  induction 1 as [|r' rows Hs IH Hall]; [repeat constructor|].
  cbn. destruct (row_created_at r' <=? row_created_at r) eqn:Hle.
  - apply Z.leb_le in Hle. constructor; [by constructor|].
    constructor; [exact Hle|].
    eapply Forall_impl; [exact Hall|]. unfold newer_first. intros; cbn in *; lia.
  - apply Z.leb_gt in Hle. constructor; [exact IH|].
    rewrite insert_desc_Permutation. constructor; [|exact Hall].
    unfold newer_first. lia.
Qed.

(** Ordering puts the rows newest first. *)
Lemma order_by_created_at_desc_sorted (rows : list TodoRow) :
  StronglySorted newer_first (order_by_created_at_desc rows).
Proof.
  induction rows as [|r rows IH]; [constructor|].
  cbn. by apply insert_desc_sorted.
Qed.

(** A page holds rows of the input only, in their order, and at most
    [l] of them. *)
Lemma limit_offset_sublist l o (rows : list TodoRow) :
  limit_offset l o rows `sublist_of` rows.
Proof.
  unfold limit_offset. etrans; [apply sublist_take | apply sublist_drop].
Qed.

Lemma newer_first_sublist (l1 l2 : list TodoRow) :
  l1 `sublist_of` l2 -> StronglySorted newer_first l2 -> StronglySorted newer_first l1.
Proof.
  induction 1 as [|x l1 l2 Hsub IH|x l1 l2 Hsub IH]; intros Hs.
  - constructor.
  - apply StronglySorted_inv in Hs as [Hs Hall]. constructor; [by apply IH|].
    apply Forall_forall. intros y Hy.
    eapply Forall_forall in Hall; [exact Hall|].
    by eapply elem_of_sublist.
  - apply StronglySorted_inv in Hs as [Hs _]. by apply IH.
Qed.


(** [Math.ceil(a / b)] is the least [k] with [a <= k * b]. *)
Lemma Math_ceil_div_spec a b :
  0 < b -> (Math_ceil_div a b - 1) * b < a <= Math_ceil_div a b * b.
Proof.
  intros Hb. unfold Math_ceil_div.
  pose proof (Z.div_mod (- a) b ltac:(lia)).
  pose proof (Z.mod_pos_bound (- a) b Hb). nia.
Qed.





End TableFacts.

Section ListFacts.

Variable default_message : ZodIssueCode -> string.
Variable ilike : string -> string -> bool.
Variable db_message : DbError -> string.

(** The parsed query always has a [completed]: without the parameter it
    is [false]. *)
Lemma listTodosQuerySchema_completed (query : gmap string QueryValue) q :
  listTodosQuerySchema default_message query = Some (inr q) ->
  q_completed q = Some match query !! "completed" with
                       | Some (QString s) => String.eqb s "true"
                       | _ => false
                       end.
Proof.
  unfold listTodosQuerySchema, completed_query.
  destruct (number_query _ _ _ _) as [[?|pg]|]; [| |discriminate];
    destruct (number_query _ _ _ _) as [[?|lm]|]; try discriminate;
    destruct (query !! "completed") as [[s|]|];
    repeat case_decide; subst;
    destruct (priority_query _ _) as [?|?], (search_query _ _) as [?|?];
    intros [= <-]; try reflexivity.
Qed.

(** The shape of a list response: the page, the limit and the count as
    the callback has them, and the rows from some offset on. *)
Lemma list_todos_inr (t : Table) (q : ListTodosQuery) (response : ListResponse) :
  list_todos ilike db_message t q = inr response ->
  let cond := list_where ilike (q_completed q) (q_priority q) (q_search q) in
  let l := default 50 (q_limit q) in
  0 <= l
  /\ pagination response
     = mkPagination (default 1 (q_page q)) l (count cond t)
         (if l =? 0 then None else Some (Math_ceil_div (count cond t) l))
  /\ exists offset,
       data response
       = limit_offset l offset (order_by_created_at_desc (List.filter cond t)).
Proof.
  unfold list_todos.
  destruct (bigint_param _); [discriminate|].
  destruct (bigint_param _); [discriminate|].
  destruct (_ <? 0); [discriminate|].
  destruct (default 50 (q_limit q) <? 0) eqn:E; [discriminate|].
  apply Z.ltb_ge in E. intros [= <-]. cbn. split; [exact E|]. split; [done|].
  by eexists.
Qed.



(** C3, at the request that shows the defect.  A list request without
    any parameter, on a table whose one row is completed, is answered
    with no row and a total of 0; the filters of the request, which has
    no [completed] parameter, match the row. *)
Theorem list_without_parameters_drops_completed_rows :
  get_todos default_message ilike db_message [sample_row "done" true 1] ∅
  = Some (inr (mkListResponse [] (mkPagination 1 50 0 (Some 0))))
  /\ List.filter (spec_matches ∅) [sample_row "done" true 1]
     = [sample_row "done" true 1].
Proof. split; reflexivity. Qed.

(** The rows of a list response are rows of the table that satisfy the
    assembled condition, newest first. *)
Lemma list_todos_data (t : Table) (q : ListTodosQuery) (response : ListResponse) :
  list_todos ilike db_message t q = inr response ->
  StronglySorted newer_first (data response)
  /\ forall r, r ∈ data response ->
       r ∈ t /\ list_where ilike (q_completed q) (q_priority q) (q_search q) r = true.
Proof.
  intros (_ & _ & offset & Hd)%list_todos_inr. rewrite Hd. split.
  - eapply newer_first_sublist; [apply limit_offset_sublist|].
    apply order_by_created_at_desc_sorted.
  - intros r Hr.
    eapply elem_of_sublist in Hr; [|apply limit_offset_sublist].
    rewrite order_by_created_at_desc_Permutation in Hr.
    apply list_elem_of_In, filter_In in Hr as [Hin Hr].
    split; [by apply list_elem_of_In|exact Hr].
Qed.

(** The same for every table: without the [completed] parameter the route
    answers with incomplete rows only. *)
Lemma get_todos_without_completed (t : Table) (query : gmap string QueryValue) response :
  query !! "completed" = None ->
  get_todos default_message ilike db_message t query = Some (inr response) ->
  Forall (fun r => row_completed r = false) (data response).
Proof.
  intros Hc. unfold get_todos.
  destruct (listTodosQuerySchema _ _) as [[?|q]|] eqn:Hq; try discriminate.
  pose proof (listTodosQuerySchema_completed _ _ Hq) as Hcq. rewrite Hc in Hcq.
  destruct (list_todos _ _ _ _) as [?|r0] eqn:Hr0; [discriminate|].
  apply list_todos_inr in Hr0 as (_ & _ & offset & Hd). rewrite Hcq in Hd.
  intros [= <-]. rewrite Hd.
  apply Forall_forall. intros r Hr.
  eapply elem_of_sublist in Hr; [|apply limit_offset_sublist].
  rewrite order_by_created_at_desc_Permutation in Hr.
  apply list_elem_of_In, filter_In in Hr as [_ Hr].
  unfold list_where in Hr.
  apply andb_prop in Hr as [[Hr _]%andb_prop _].
  by destruct (row_completed r).
Qed.


End ListFacts.


(** A limit beyond the range of C4 as amended: the database does not
    read 10^19 as a [bigint] and refuses the statement, and the request
    is answered with an error. *)
Remark list_limit_beyond_bigint_is_refused :
  list_todos no_match no_db_message [sample_row "open" false 1]
    (mkListTodosQuery None None None (Some 1) (Some (10 ^ 19)))
  = inl (db_error no_db_message (bigint_out_of_range (10 ^ 19)))
  /\ errorHandler (db_error no_db_message (bigint_out_of_range (10 ^ 19)))
     = mkErrorResponse 500 (Some "Internal server error") None.
Proof. by vm_compute. Qed.


End ServerFacts.

(** * Properties of the client *)

Module ClientFacts.
Import Client.

(** ** The transport client *)

Section TransportFacts.

Variable ToString : Json -> string.
Variable null_read_message : string.


End TransportFacts.



(** ** The query cache *)

Section CacheFacts.

Lemma invalidate_lookup (filter : QueryKey) (c : QueryCache) (key : QueryKey) :
  invalidate filter c !! key
  = (fun q => if matches filter key then mkQueryState (state_data q) true else q)
      <$> c !! key.
Proof.
  unfold invalidate. rewrite map_lookup_imap. by destruct (c !! key).
Qed.

Lemma setQueriesData_lookup (filter : QueryKey) (updater : option CacheData -> option CacheData)
    (c : QueryCache) (key : QueryKey) :
  setQueriesData filter updater c !! key
  = (fun q => if matches filter key
              then match updater (state_data q) with
                   | Some d => setData d
                   | None => q
                   end
              else q) <$> c !! key.
Proof.
  unfold setQueriesData. rewrite map_lookup_imap. by destruct (c !! key).
Qed.

(** Invalidation leaves the data of every query as it is. *)
Lemma getQueryData_invalidate (filter : QueryKey) (c : QueryCache) (key : QueryKey) :
  getQueryData key (invalidate filter c) = getQueryData key c.
Proof.
  unfold getQueryData. rewrite invalidate_lookup.
  destruct (c !! key) as [q|]; [|reflexivity].
  cbn. by destruct (matches filter key).
Qed.

Lemma getQueryData_setQueriesData_other (filter : QueryKey) (updater : option CacheData -> option CacheData)
    (c : QueryCache) (key : QueryKey) :
  matches filter key = false ->
  getQueryData key (setQueriesData filter updater c) = getQueryData key c.
Proof.
  intros Hm. unfold getQueryData. rewrite setQueriesData_lookup, Hm.
  by destruct (c !! key).
Qed.

Lemma getQueryData_setQueryData (key : QueryKey)
    (updater : option CacheData -> option CacheData) (c : QueryCache) :
  getQueryData key (setQueryData key updater c)
  = match updater (getQueryData key c) with
    | Some d => Some d
    | None => getQueryData key c
    end.
Proof.
  unfold setQueryData. destruct (updater _) as [d|]; [|reflexivity].
  unfold getQueryData. by rewrite lookup_insert_eq.
Qed.

Lemma getQueryData_setQueryData_other (key key' : QueryKey)
    (updater : option CacheData -> option CacheData) (c : QueryCache) :
  key <> key' ->
  getQueryData key (setQueryData key' updater c) = getQueryData key c.
Proof.
  intros Hne. unfold setQueryData. destruct (updater _) as [d|]; [|reflexivity].
  unfold getQueryData. by rewrite lookup_insert_ne.
Qed.

(** After an invalidation a query that the filter matches is flagged, and
    a flagged query stays so. *)
Lemma invalidate_flag (filter : QueryKey) (c : QueryCache) (key : QueryKey) (q : QueryState) :
  invalidate filter c !! key = Some q ->
  exists q0, c !! key = Some q0
    /\ isInvalidated q = matches filter key || isInvalidated q0.
Proof.
  rewrite invalidate_lookup. destruct (c !! key) as [q0|]; [|discriminate].
  cbn. intros [= <-]. exists q0. split; [reflexivity|].
  by destruct (matches filter key).
Qed.

End CacheFacts.

(** ** The mutation hooks *)

Section MutationFacts.

Variable toISOString : Z -> string.

Lemma lists_do_not_match_detail (id : string) :
  matches queryKeys.todos_lists (queryKeys.todos_detail id) = false.
Proof. reflexivity. Qed.

Lemma lists_do_not_match_stats :
  matches queryKeys.todos_lists queryKeys.stats_all = false.
Proof. reflexivity. Qed.

Lemma detail_is_not_stats (id : string) :
  queryKeys.stats_all <> queryKeys.todos_detail id.
Proof. discriminate. Qed.

Lemma cache_of_failed_mutate m now e st :
  cache (mutate toISOString m now (Rejected e) st)
  = fold_right invalidate (failed_cache toISOString m now st) (reverse (settled_keys m)).
Proof. by destruct m. Qed.

Lemma getQueryData_fold_invalidate (keys : list QueryKey) (c : QueryCache)
    (key : QueryKey) :
  getQueryData key (fold_right invalidate c keys) = getQueryData key c.
Proof.
  induction keys as [|k keys IH]; [reflexivity|].
  cbn. by rewrite getQueryData_invalidate.
Qed.

(** After a failed mutation the data of the stats query is what it was:
    no hook writes it. *)
Lemma failed_mutation_keeps_stats m now e st :
  getQueryData queryKeys.stats_all (cache (mutate toISOString m now (Rejected e) st))
  = getQueryData queryKeys.stats_all (cache st).
Proof.
  rewrite cache_of_failed_mutate, getQueryData_fold_invalidate.
  unfold failed_cache, rollback, onMutate.
  destruct m as [newTodo|id data|id|id];
    cbn [fst snd cache on_cache previousTodo previousTodos];
    destruct (getQueryData queryKeys.todos_lists (cache st));
    try destruct (getQueryData (queryKeys.todos_detail id) (cache st));
    repeat first
      [ rewrite getQueryData_setQueriesData_other by reflexivity
      | rewrite getQueryData_setQueryData_other by apply detail_is_not_stats ];
    reflexivity.
Qed.

(** After a failed update or toggle the data of the detail query of the
    target is what it was. *)
Lemma failed_mutation_restores_detail m now e st id :
  target m = Some id ->
  getQueryData (queryKeys.todos_detail id)
    (cache (mutate toISOString m now (Rejected e) st))
  = getQueryData (queryKeys.todos_detail id) (cache st).
Proof.
  intros Ht.
  rewrite cache_of_failed_mutate, getQueryData_fold_invalidate.
  unfold failed_cache, rollback, onMutate.
  destruct m as [newTodo|id' data|id'|id']; try discriminate;
    injection Ht as ->;
    cbn [fst snd cache on_cache previousTodo previousTodos];
    destruct (getQueryData queryKeys.todos_lists (cache st));
    destruct (getQueryData (queryKeys.todos_detail id) (cache st)) as [d|] eqn:Hd;
    repeat first
      [ rewrite getQueryData_setQueriesData_other by reflexivity
      | rewrite getQueryData_setQueryData ];
    rewrite ?Hd; reflexivity.
Qed.

(** C1, at the mutation that shows the defect.  The cache holds the list
    query of [useTodos()] with one todo.  A create whose transport call
    fails leaves that query, after settlement, with the stand-in todo in
    front and a total of 2: the snapshot was read under the key of the
    list prefix, which no query has, so the rollback found nothing to
    restore. *)
Theorem failed_create_leaves_optimistic_list :
  let request := mkCreateTodoRequest "Walk dog" None None None in
  let st' := mutate toISOString (CreateTodo request) 1000 (Rejected unreachable) fetched in
  getQueryData (queryKeys.todos_list None) (cache fetched) = Some (ListData one_todo)
  /\ getQueryData queryKeys.todos_lists (cache fetched) = None
  /\ getQueryData (queryKeys.todos_list None) (cache st')
     = Some (ListData (mkTodoListResponse
                         [optimisticTodo toISOString request 1000; milk] 2 1 50 1))
  /\ getQueryData (queryKeys.todos_list None) (cache st')
     <> getQueryData (queryKeys.todos_list None) (cache fetched).
Proof.
  cbv zeta.
  assert (H : getQueryData (queryKeys.todos_list None)
                (cache (mutate toISOString
                          (CreateTodo (mkCreateTodoRequest "Walk dog" None None None))
                          1000 (Rejected unreachable) fetched))
              = Some (ListData (mkTodoListResponse
                   [optimisticTodo toISOString
                      (mkCreateTodoRequest "Walk dog" None None None) 1000; milk]
                   2 1 50 1))) by (vm_compute; reflexivity).
  rewrite H. repeat split; try (vm_compute; reflexivity).
  discriminate.
Qed.

(** Where a query under the key of the list prefix exists, the rollback
    writes its snapshot into every list query: the list of [useTodos()]
    ends with the empty list of that query, not with its own todo. *)
Lemma failed_create_overwrites_lists_with_prefix_snapshot :
  let request := mkCreateTodoRequest "Walk dog" None None None in
  let st' := mutate toISOString (CreateTodo request) 1000 (Rejected unreachable)
               with_prefix_query in
  getQueryData (queryKeys.todos_list None) (cache with_prefix_query)
  = Some (ListData one_todo)
  /\ getQueryData (queryKeys.todos_list None) (cache st') = Some (ListData no_todo).
Proof. split; vm_compute; reflexivity. Qed.

(** The same defect on an update: the list keeps the patched title. *)
Lemma failed_update_leaves_optimistic_list :
  let data := mkUpdateTodoRequest (Some "Buy bread") None None None None in
  let st' := mutate toISOString (UpdateTodo "1" data) 1000 (Rejected unreachable) fetched in
  getQueryData (queryKeys.todos_list None) (cache st')
  = Some (ListData (mkTodoListResponse [merge toISOString data 1000 milk] 1 1 50 1)).
Proof. vm_compute. reflexivity. Qed.

(** *** Invalidation *)

Lemma invalidations_of_mutate m now result st :
  invalidations (mutate toISOString m now result st)
  = (invalidations st ++ settled_keys m)%list.
Proof.
  destruct m, result; cbn; by rewrite <- ?app_assoc.
Qed.

Lemma settled_keys_NoDup m : NoDup (settled_keys m).
Proof.
  unfold settled_keys. destruct (target m) as [id|]; cbn;
    repeat (apply NoDup_cons; split); try apply NoDup_nil_2;
    rewrite ?not_elem_of_cons; repeat split; try discriminate;
    apply not_elem_of_nil.
Qed.

Lemma cache_of_mutate m now result st :
  exists c, cache (mutate toISOString m now result st)
            = fold_right invalidate c (reverse (settled_keys m)).
Proof. destruct m, result; eexists; reflexivity. Qed.

Lemma fold_invalidate_flag (keys : list QueryKey) (c : QueryCache)
    (filter key : QueryKey) (q : QueryState) :
  filter ∈ keys ->
  fold_right invalidate c keys !! key = Some q ->
  matches filter key = true ->
  isInvalidated q = true.
Proof.
  intros Hin Hq Hm. revert q Hq.
  induction keys as [|k keys IH]; intros q Hq; [by apply elem_of_nil in Hin|].
  cbn in Hq. apply invalidate_flag in Hq as (q0 & Hq0 & ->).
  apply elem_of_cons in Hin as [<- | Hin].
  - by rewrite Hm.
  - rewrite (IH Hin q0 Hq0). apply orb_true_r.
Qed.

(** [useDeleteCompleted] invalidates on success only. *)
Lemma invalidations_of_deleteCompleted result st :
  invalidations (deleteCompleted result st)
  = (invalidations st
     ++ match result with
        | inr _ => [queryKeys.todos_lists; queryKeys.stats_all]
        | inl _ => []
        end)%list.
Proof. destruct result; cbn; by rewrite <- ?app_assoc, ?app_nil_r. Qed.

(** C2, as amended.  The settlement of a mutation names the list prefix
    and the stats key, and for an update or a toggle the detail key of
    the target, each once, whether the transport call succeeded or
    failed; nothing else of the mutation invalidates; and after
    settlement every cached query under one of these keys is flagged
    invalidated.  The bulk delete of completed todos, which has no
    optimistic phase, invalidates the list prefix and the stats key once
    when it succeeds and nothing when it fails. *)
Theorem settlement_invalidates_once (m : Mutation) (now : Z)
    (result : TransportResult) (st : ClientState) :
  invalidations (mutate toISOString m now result st)
  = (invalidations st ++ settled_keys m)%list
  /\ NoDup (settled_keys m)
  /\ queryKeys.todos_lists ∈ settled_keys m
  /\ queryKeys.stats_all ∈ settled_keys m
  /\ (forall id, target m = Some id -> queryKeys.todos_detail id ∈ settled_keys m)
  /\ (forall filter key q,
        filter ∈ settled_keys m ->
        cache (mutate toISOString m now result st) !! key = Some q ->
        matches filter key = true ->
        isInvalidated q = true)
  /\ (forall outcome st0,
        invalidations (deleteCompleted outcome st0)
        = (invalidations st0
           ++ match outcome with
              | inr _ => [queryKeys.todos_lists; queryKeys.stats_all]
              | inl _ => []
              end)%list).
Proof.
  split; [apply invalidations_of_mutate|].
  split; [apply settled_keys_NoDup|].
  unfold settled_keys.
  split; [set_solver|]. split; [set_solver|].
  split; [intros id ->; set_solver|].
  split; [|intros outcome st0; apply invalidations_of_deleteCompleted].
  intros filter key q Hin Hq Hm.
  destruct (cache_of_mutate m now result st) as [c Hc].
  rewrite Hc in Hq.
  eapply fold_invalidate_flag; [|exact Hq|exact Hm].
  by apply elem_of_reverse.
Qed.

End MutationFacts.

(** C2, as the specification words it, fails: a create whose transport call
    fails invalidates the list prefix and the stats key, and the list query
    is flagged. *)
Lemma failed_create_invalidates :
  let st' := mutate pretty (CreateTodo (mkCreateTodoRequest "Walk dog" None None None))
               1000 (Rejected unreachable) fetched in
  invalidations fetched = []
  /\ invalidations st' = [queryKeys.todos_lists; queryKeys.stats_all]
  /\ invalidations st' <> []
  /\ isInvalidated <$> cache st' !! queryKeys.todos_list None = Some true.
Proof. vm_compute. repeat split. discriminate. Qed.

End ClientFacts.

(** * More properties of the server *)

Module ServerExtraFacts.
Import Server ServerExtra.

(** ** The error handler *)

Lemma prefix_app (needle post : string) : String.prefix needle (needle ++ post) = true.
Proof.
  induction needle as [|c needle IH]; [by destruct post|].
  simpl. destruct (Ascii.ascii_dec c c); [exact IH|done].
Qed.

Lemma includes_prefix (hay needle : string) :
  String.prefix needle hay = true -> includes hay needle = true.
Proof. intros H. destruct hay; simpl in *; by rewrite H. Qed.

Lemma includes_app (pre needle post : string) :
  includes (pre ++ needle ++ post) needle = true.
Proof.
  induction pre as [|c pre IH].
  - change ("" ++ needle ++ post) with (needle ++ post).
    apply includes_prefix. apply prefix_app.
  - simpl. rewrite IH. apply orb_true_r.
Qed.

Lemma prefix_inv (needle hay : string) :
  String.prefix needle hay = true -> exists post, hay = needle ++ post.
Proof.
  revert hay. induction needle as [|c needle IH]; intros hay H.
  - by exists hay.
  - destruct hay as [|c' hay]; [discriminate|]. simpl in H.
    destruct (Ascii.ascii_dec c c') as [<-|]; [|discriminate].
    destruct (IH hay H) as [post ->]. by exists post.
Qed.

(** [includes] holds exactly of the strings that have the needle as a
    substring. *)
Lemma includes_spec (hay needle : string) :
  includes hay needle = true <-> exists pre post, hay = pre ++ needle ++ post.
Proof.
  split.
  - induction hay as [|c hay IH].
    + unfold includes. rewrite orb_false_r. intros H.
      destruct (prefix_inv _ _ H) as [post ->]. by exists "", post.
    + change (includes (String c hay) needle)
        with (String.prefix needle (String c hay) || includes hay needle).
      intros [H|H]%orb_prop.
      * destruct (prefix_inv _ _ H) as [post ->]. by exists "", post.
      * destruct (IH H) as (pre & post & ->). by exists (String c pre), post.
  - intros (pre & post & ->). apply includes_app.
Qed.

(** X1.  The answer of the error handler by kind of error.  An error made
    by [createError] with a status other than 0 and 500 and a message that
    names no database error is answered with that status and that message,
    its details passed on when they are truthy and left out otherwise.  A
    message that has 'duplicate key' as a substring is answered with 409
    'Resource already exists' and no details, whatever the status code and
    the details of the error; one that has 'violates foreign key' and not
    'duplicate key', with 400 'Invalid reference'.  A validation error is
    answered with 400 'Validation failed' and one detail for each issue, in
    order, with the message of the issue. *)
Theorem errorHandler_answers_by_kind
    (message : string) (statusCode : Z) (details : option Json)
    (pre post : string) (code : option Z) (issues : list ZodIssue) :
  (statusCode <> 0 ->
   statusCode <> 500 ->
   includes message "duplicate key" = false ->
   includes message "violates foreign key" = false ->
   errorHandler (createError message statusCode details)
   = mkErrorResponse statusCode (Some message)
       (match details with
        | Some d => if truthy d then Some (CustomDetails d) else None
        | None => None
        end))
  /\ errorHandler (ApiError (Some (pre ++ "duplicate key" ++ post)) code details)
     = mkErrorResponse 409 (Some "Resource already exists") None
  /\ (includes (pre ++ "violates foreign key" ++ post) "duplicate key" = false ->
      errorHandler (ApiError (Some (pre ++ "violates foreign key" ++ post)) code details)
      = mkErrorResponse 400 (Some "Invalid reference") None)
  /\ exists listed,
       errorHandler (ZodError issues)
       = mkErrorResponse 400 (Some "Validation failed") (Some (IssueList listed))
       /\ map snd listed = map issue_message issues
       /\ map fst listed = map (fun e => join_path (issue_path e)) issues.
Proof.
  split; [|split; [|split]].
  - intros H0 H500 Hdup Hfk. unfold errorHandler, createError, message_includes.
    rewrite Hdup, Hfk. unfold status_or_500.
    destruct (statusCode =? 0) eqn:E0; [apply Z.eqb_eq in E0; done|].
    destruct (statusCode =? 500) eqn:E5; [apply Z.eqb_eq in E5; done|].
    reflexivity.
  - unfold errorHandler, message_includes. by rewrite includes_app.
  - intros Hdup. unfold errorHandler, message_includes.
    by rewrite Hdup, includes_app.
  - eexists. split; [reflexivity|]. rewrite !map_map. split; reflexivity.
Qed.

(** ** The schemas *)

Section SchemaFacts.

Variable default_message : ZodIssueCode -> string.
Variable is_datetime : string -> bool.

Lemma title_optional_sound (v : option Json) (s : string) :
  title_optional default_message v = inr (Some s) ->
  1 <= utf16_length s <= 500.
Proof.
  unfold title_optional. destruct v as [[]|]; try discriminate.
  destruct (_ <? 1) eqn:E1; [discriminate|].
  destruct (500 <? _) eqn:E2; [discriminate|].
  apply Z.ltb_ge in E1, E2. intros [= <-]. lia.
Qed.

Lemma description_optional_nullable_sound (v : option Json) (s : string) :
  description_optional_nullable default_message v = inr (Some (Some s)) ->
  utf16_length s <= 5000.
Proof.
  unfold description_optional_nullable. destruct v as [[]|]; try discriminate.
  destruct (5000 <? _) eqn:E; [discriminate|].
  apply Z.ltb_ge in E. intros [= <-]. lia.
Qed.

Lemma due_date_optional_nullable_sound (v : option Json) (s : string) :
  due_date_optional_nullable default_message is_datetime v = inr (Some (Some s)) ->
  is_datetime s = true.
Proof.
  unfold due_date_optional_nullable. destruct v as [[]|]; try discriminate.
  destruct (is_datetime _) eqn:E; [|discriminate]. by intros [= <-].
Qed.

(** X2.  A patch that [updateTodoSchema] accepts has, where present, a
    title of 1 to 500 UTF-16 code units, a description of at most 5000
    code units and a due date that passes the date-time test. *)
Theorem updateTodoSchema_sound (body : Json) (input : UpdateTodoInput) :
  updateTodoSchema default_message is_datetime body = inr input ->
  (forall s, u_title input = Some s -> 1 <= utf16_length s <= 500)
  /\ (forall s, u_description input = Some (Some s) -> utf16_length s <= 5000)
  /\ (forall s, u_due_date input = Some (Some s) -> is_datetime s = true).
Proof.
  unfold updateTodoSchema. destruct body as [| | | | |fields]; try discriminate.
  destruct (title_optional _ _) as [?|t] eqn:Ht;
    destruct (description_optional_nullable _ _) as [?|d] eqn:Hd;
    destruct (priority_optional _ _) as [?|p];
    destruct (due_date_optional_nullable _ _ _) as [?|dd] eqn:Hdd;
    destruct (completed_optional _ _) as [?|c]; try discriminate.
  intros [= <-]. cbn. split; [|split]; intros s ->.
  - by eapply title_optional_sound.
  - by eapply description_optional_nullable_sound.
  - by eapply due_date_optional_nullable_sound.
Qed.

Lemma title_required_sound (v : option Json) (s : string) :
  title_required default_message v = inr s ->
  v = Some (JStr s) /\ 1 <= utf16_length s <= 500.
Proof.
  unfold title_required. destruct v as [[]|]; try discriminate.
  destruct (_ <? 1) eqn:E1; [discriminate|].
  destruct (500 <? _) eqn:E2; [discriminate|].
  apply Z.ltb_ge in E1, E2. intros [= <-]. split; [reflexivity|lia].
Qed.

Lemma description_optional_sound (v : option Json) (s : string) :
  description_optional default_message v = inr (Some s) ->
  utf16_length s <= 5000.
Proof.
  unfold description_optional. destruct v as [[]|]; try discriminate.
  destruct (5000 <? _) eqn:E; [discriminate|].
  apply Z.ltb_ge in E. intros [= <-]. lia.
Qed.

Lemma createTodoSchema_members (fields : gmap string Json) (input : CreateTodoInput) :
  createTodoSchema default_message is_datetime (JObj fields) = inr input ->
  title_required default_message (fields !! "title") = inr (c_title input)
  /\ description_optional default_message (fields !! "description")
     = inr (c_description input)
  /\ priority_default default_message (fields !! "priority") = inr (c_priority input)
  /\ due_date_optional default_message is_datetime (fields !! "due_date")
     = inr (c_due_date input)
  /\ completed_default default_message (fields !! "completed") = inr (c_completed input).
Proof.
  unfold createTodoSchema.
  destruct (title_required _ _) as [?|t];
    destruct (description_optional _ _) as [?|d];
    destruct (priority_default _ _) as [?|p];
    destruct (due_date_optional _ _ _) as [?|dd];
    destruct (completed_default _ _) as [?|c]; try discriminate.
  by intros [= <-].
Qed.

(** X3.  A body that [createTodoSchema] accepts has a title, a string of 1
    to 500 UTF-16 code units, and a description of at most 5000 code units
    when it has one; the parsed input has priority medium when the body
    names none and is not completed when the body does not say. *)
Theorem createTodoSchema_sound (fields : gmap string Json) (input : CreateTodoInput) :
  createTodoSchema default_message is_datetime (JObj fields) = inr input ->
  fields !! "title" = Some (JStr (c_title input))
  /\ 1 <= utf16_length (c_title input) <= 500
  /\ (forall s, c_description input = Some s -> utf16_length s <= 5000)
  /\ (fields !! "priority" = None -> c_priority input = medium)
  /\ (fields !! "completed" = None -> c_completed input = false).
Proof.
  intros (Ht & Hd & Hp & _ & Hc)%createTodoSchema_members.
  destruct (title_required_sound _ _ Ht) as [Hv Hlen].
  split; [exact Hv|]. split; [exact Hlen|]. split; [|split].
  - intros s' Hs. rewrite Hs in Hd. by eapply description_optional_sound.
  - intros Hn. rewrite Hn in Hp. cbn in Hp. congruence.
  - intros Hn. rewrite Hn in Hc. cbn in Hc. congruence.
Qed.

(** X4.  The two body schemas read the members they declare and no other:
    a member of another name changes neither result. *)
Theorem body_schemas_drop_other_members
    (fields : gmap string Json) (name : string) (v : Json) :
  name ∉ ["title"; "description"; "priority"; "due_date"; "completed"] ->
  updateTodoSchema default_message is_datetime (JObj (<[name := v]> fields))
  = updateTodoSchema default_message is_datetime (JObj fields)
  /\ createTodoSchema default_message is_datetime (JObj (<[name := v]> fields))
     = createTodoSchema default_message is_datetime (JObj fields).
Proof.
  intros Hn. rewrite !not_elem_of_cons in Hn.
  destruct Hn as (H1 & H2 & H3 & H4 & H5 & _).
  unfold updateTodoSchema, createTodoSchema.
  by rewrite !lookup_insert_ne.
Qed.

End SchemaFacts.

(** The bounds count code units, not bytes: a title of 251 accented
    letters, 502 bytes, is accepted, and a character beyond the basic plane
    counts two. *)
Remark title_length_counts_code_units :
  utf16_length accented_title = 251
  /\ String.length accented_title = 502%nat
  /\ utf16_length "😀" = 2
  /\ title_required no_message (Some (JStr accented_title)) = inr accented_title
  /\ title_optional no_message (Some (JStr accented_title)) = inr (Some accented_title).
Proof. by vm_compute. Qed.

Lemma updateTodoSchema_sound_witness :
  1 <= utf16_length "Buy bread" <= 500.
Proof.
  assert (H : updateTodoSchema no_message any_datetime (JObj bread_fields)
              = inr bread_patch) by (vm_compute; reflexivity).
  destruct (updateTodoSchema_sound no_message any_datetime _ _ H) as [Ht _].
  exact (Ht "Buy bread" eq_refl).
Defined.

Lemma createTodoSchema_sound_witness :
  c_priority milk_input = medium /\ c_completed milk_input = false.
Proof.
  assert (H : createTodoSchema no_message any_datetime (JObj milk_fields)
              = inr milk_input) by (vm_compute; reflexivity).
  destruct (createTodoSchema_sound no_message any_datetime _ _ H)
    as (_ & _ & _ & Hp & Hc).
  split; [apply Hp|apply Hc]; vm_compute; reflexivity.
Defined.

Lemma body_schemas_drop_other_members_witness :
  updateTodoSchema no_message any_datetime (JObj (<["id" := JStr "x"]> bread_fields))
  = updateTodoSchema no_message any_datetime (JObj bread_fields).
Proof.
  assert (H : "id" ∉ ["title"; "description"; "priority"; "due_date"; "completed"]).
  { rewrite !not_elem_of_cons. repeat split; try discriminate. apply not_elem_of_nil. }
  destruct (body_schemas_drop_other_members no_message any_datetime
              bread_fields "id" (JStr "x") H) as [Hu _].
  exact Hu.
Defined.

(** ** The routes that write *)

Section RouteFacts.

Variable default_message : ZodIssueCode -> string.
Variable is_datetime : string -> bool.
Variable timestamp_in : string -> option Z.
Variable table_check : string -> option string -> bool.
Variable db_message : DbError -> string.
Variable duplicate_message : string.

Lemma elem_of_ids (id : string) (t : Table) :
  id ∈ ids t <-> exists r, r ∈ t /\ row_id r = id.
Proof.
  unfold ids. rewrite list_elem_of_fmap. split; intros (r & H1 & H2); eauto.
Qed.

Lemma filter_has_id_nil (id : string) (t : Table) :
  List.filter (has_id id) t = [] <-> id ∉ ids t.
Proof.
  rewrite elem_of_ids. induction t as [|r t IH]; simpl.
  - split; [|done]. intros _ (r & H & _). by apply elem_of_nil in H.
  - unfold has_id at 1. case_bool_decide as E.
    + split; [done|]. intros H. exfalso. apply H. exists r. split; [left|done].
    + rewrite IH. split; intros H (r' & Hin & Hid); apply H.
      * apply elem_of_cons in Hin as [->|Hin]; [done|]. eauto.
      * exists r'. split; [by right|done].
Qed.

Lemma existsb_has_id (id : string) (t : Table) :
  existsb (has_id id) t = false <-> id ∉ ids t.
Proof.
  rewrite <- filter_has_id_nil. induction t as [|r t IH]; simpl; [done|].
  destruct (has_id id r); simpl; [done|exact IH].
Qed.

Lemma elem_of_filter_list {A} (p : A -> bool) (l : list A) (x : A) :
  x ∈ List.filter p l <-> x ∈ l /\ p x = true.
Proof. rewrite !list_elem_of_In. apply filter_In. Qed.

Lemma filter_has_id_head (id : string) (t : Table) (r : TodoRow) (rest : list TodoRow) :
  List.filter (has_id id) t = r :: rest -> r ∈ t /\ row_id r = id.
Proof.
  intros H. assert (Hin : r ∈ List.filter (has_id id) t) by (rewrite H; left).
  apply elem_of_filter_list in Hin as [Hin Hid]. split; [done|].
  unfold has_id in Hid. by apply bool_decide_eq_true in Hid.
Qed.

Lemma filter_has_id_fresh (id : string) (t : Table) (r : TodoRow) :
  id ∉ ids t -> row_id r = id -> List.filter (has_id id) (t ++ [r]) = [r].
Proof.
  intros Hf Hid. rewrite List.filter_app.
  apply filter_has_id_nil in Hf. rewrite Hf. simpl.
  unfold has_id. by rewrite bool_decide_eq_true_2.
Qed.

(** X5.  A create request that is answered with a row has appended that
    row to the table: it carries the generated id, which no row had, the
    title of the body, the instant of the insert as [created_at] and as
    [updated_at], never the empty string as description, and the defaults
    for the members the body leaves out; it is the only row of the new
    table with that id. *)
Theorem post_todo_appends_row
    (t t' : Table) (now : Z) (id : string) (body : Json) (r : TodoRow) :
  post_todo default_message is_datetime timestamp_in table_check db_message
    duplicate_message t now id body = (t', inr r) ->
  t' = (t ++ [r])%list
  /\ (id ∉ ids t)
  /\ row_id r = id
  /\ row_created_at r = now
  /\ row_updated_at r = now
  /\ row_description r <> Some ""
  /\ (exists fields, body = JObj fields
        /\ fields !! "title" = Some (JStr (row_title r))
        /\ (fields !! "priority" = None -> row_priority r = medium)
        /\ (fields !! "completed" = None -> row_completed r = false)
        /\ (fields !! "due_date" = None -> row_due_date r = None))
  /\ (forall r', r' ∈ t' -> row_id r' = id -> r' = r).
Proof.
  unfold post_todo, validate.
  destruct (createTodoSchema _ _ body) as [?|input] eqn:Hs; [discriminate|].
  unfold create_todo.
  destruct (insert_due_date _ _) as [due|] eqn:Hd; [|discriminate].
  destruct (negb _); [discriminate|].
  destruct (existsb _ _) eqn:Hex; [discriminate|].
  intros [= <- <-]. apply existsb_has_id in Hex.
  split; [done|]. split; [done|]. split; [done|]. split; [done|]. split; [done|].
  split; [|split].
  - cbn. unfold text_or_null. destruct (c_description input) as [d|]; [|done].
    destruct (String.eqb d "") eqn:E; [done|].
    apply String.eqb_neq in E. congruence.
  - destruct body as [| | | | |fields];
      try (unfold createTodoSchema in Hs; discriminate).
    exists fields. split; [done|].
    destruct (createTodoSchema_members _ _ _ _ Hs) as (Ht & _ & Hp & Hdd & Hc).
    apply title_required_sound in Ht as [Ht _].
    cbn. split; [done|]. split; [|split].
    + intros Hn. rewrite Hn in Hp. cbn in Hp. congruence.
    + intros Hn. rewrite Hn in Hc. cbn in Hc. congruence.
    + intros Hn. rewrite Hn in Hdd. cbn in Hdd. injection Hdd as Hdd.
      rewrite <- Hdd in Hd. cbn in Hd. by injection Hd as <-.
  - intros r' [Hin|Hin]%elem_of_app Hid'.
    + exfalso. apply Hex. apply elem_of_ids. by exists r'.
    + by apply list_elem_of_singleton in Hin.
Qed.


(** The response of the routes to an id that no row has. *)
Lemma errorHandler_not_found :
  errorHandler (createError "Todo not found" 404 None)
  = mkErrorResponse 404 (Some "Todo not found") None.
Proof. reflexivity. Qed.

(** X6.  A request that writes and is answered with an error response
    leaves the table as it was. *)
Theorem failed_request_leaves_table
    (t t' : Table) (now : Z) (fresh : string) (req : WriteRequest) (e : ErrorResponse) :
  serve default_message is_datetime timestamp_in table_check db_message
    duplicate_message t now fresh req = (t', Failed e) ->
  t' = t.
Proof.
  destruct req as [body|id body|id|id|]; cbn [serve]; unfold answer_of.
  - unfold post_todo. destruct (validate _ body) as [?|input]; [congruence|].
    unfold create_todo. destruct (insert_due_date _ _); [|congruence].
    destruct (negb _); [congruence|]. destruct (existsb _ _); congruence.
  - unfold patch_todo. destruct (validate _ body) as [?|input]; [congruence|].
    unfold update_todo. destruct (updates input); [congruence|].
    destruct (due_date_param _ _); [|congruence].
    destruct (update_where_id _ _ _ _) as [?|[? [|? ?]]]; congruence.
  - unfold post_toggle, toggle_todo.
    destruct (update_where_id _ _ _ _) as [?|[? [|? ?]]]; congruence.
  - unfold delete_request, delete_todo.
    destruct (List.filter _ _); congruence.
  - unfold clear_completed. congruence.
Qed.

Lemma NoDup_filter_ids (p : TodoRow -> bool) (t : Table) :
  NoDup (ids t) -> NoDup (ids (List.filter p t)).
Proof.
  unfold ids. induction t as [|r t IH]; simpl; [done|].
  rewrite NoDup_cons. intros [Hr Ht]. destruct (p r); simpl; [|by apply IH].
  apply NoDup_cons. split; [|by apply IH].
  intros Hin. apply Hr. apply list_elem_of_fmap in Hin as (x & -> & Hx).
  apply elem_of_filter_list in Hx as [Hx _].
  apply list_elem_of_fmap. by exists x.
Qed.

Lemma forallb_filter_list {A} (c p : A -> bool) (l : list A) :
  forallb c l = true -> forallb c (List.filter p l) = true.
Proof.
  induction l as [|x l IH]; simpl; [done|].
  intros [Hx Hl]%andb_prop. destruct (p x); simpl; [|by apply IH].
  by rewrite Hx, IH.
Qed.

Lemma ids_on_id (id : string) (f : TodoRow -> TodoRow) (t : Table) :
  (forall r, row_id (f r) = row_id r) -> ids (map (on_id id f) t) = ids t.
Proof.
  intros Hf. unfold ids. rewrite map_map. apply map_ext. intros r.
  unfold on_id. by destruct (has_id id r).
Qed.

Lemma update_where_id_keeps_constraints
    (f : TodoRow -> TodoRow) (id : string) (t t' : Table) (rows : list TodoRow) :
  (forall r, row_id (f r) = row_id r) ->
  update_where_id table_check f id t = inr (t', rows) ->
  ids t' = ids t
  /\ (forallb (row_check table_check) t = true ->
      forallb (row_check table_check) t' = true).
Proof.
  intros Hf. rewrite ServerFacts.update_where_id_unfold by done.
  destruct (forallb _ _) eqn:Hc; [|discriminate]. intros [= <- <-].
  split; [by apply ids_on_id|].
  induction t as [|r t IH]; simpl in *; [done|].
  intros [Hr Ht]%andb_prop. unfold on_id at 1.
  destruct (has_id id r); simpl in Hc.
  - apply andb_prop in Hc as [Hfr Hc]. rewrite Hfr. by apply IH.
  - rewrite Hr. by apply IH.
Qed.

(** X7.  Every request that writes keeps the constraints of the table: no
    two rows share an id, and every row passes the CHECK constraints. *)
Theorem serve_keeps_table_constraints
    (t : Table) (now : Z) (fresh : string) (req : WriteRequest) :
  NoDup (ids t) ->
  forallb (row_check table_check) t = true ->
  let t' := fst (serve default_message is_datetime timestamp_in table_check
                   db_message duplicate_message t now fresh req) in
  NoDup (ids t') /\ forallb (row_check table_check) t' = true.
Proof.
  intros Hnd Hck.
  destruct req as [body|id body|id|id|]; cbn [serve]; unfold answer_of.
  - unfold post_todo. destruct (validate _ body) as [?|input]; [done|].
    unfold create_todo. destruct (insert_due_date _ _); [|done].
    destruct (negb _) eqn:Hr; [done|]. destruct (existsb _ _) eqn:Hex; [done|].
    cbn [fst]. apply existsb_has_id in Hex. apply negb_false_iff in Hr. split.
    + unfold ids. rewrite map_app. apply NoDup_app. split; [done|].
      split; [|apply NoDup_singleton].
      intros x Hx [->|[]%elem_of_nil]%elem_of_cons. by apply Hex.
    + rewrite forallb_app, Hck. simpl. by rewrite Hr.
  - unfold patch_todo. destruct (validate _ body) as [?|input]; [done|].
    unfold update_todo. destruct (updates input); [done|].
    destruct (due_date_param _ _); [|done].
    destruct (update_where_id _ _ _ _) as [?|[t1 [|? ?]]] eqn:Hu; [done|done|].
    cbn [fst]. apply update_where_id_keeps_constraints in Hu as [Hi Hc]; [|done].
    rewrite Hi. auto.
  - unfold post_toggle, toggle_todo.
    destruct (update_where_id _ _ _ _) as [?|[t1 [|? ?]]] eqn:Hu; [done|done|].
    cbn [fst]. apply update_where_id_keeps_constraints in Hu as [Hi Hc]; [|done].
    rewrite Hi. auto.
  - unfold delete_request, delete_todo.
    destruct (List.filter (has_id id) t); [done|]. cbn [fst].
    split; [by apply NoDup_filter_ids|by apply forallb_filter_list].
  - unfold clear_completed. cbn [fst].
    split; [by apply NoDup_filter_ids|by apply forallb_filter_list].
Qed.

Lemma get_todo_finds_the_row (t : Table) (u : string) :
  match get_todo t u with
  | inr r =>
      (r ∈ t) /\ row_id r = u
      /\ (NoDup (ids t) -> forall r', r' ∈ t -> row_id r' = u -> r' = r)
  | inl e => (u ∉ ids t) /\ e = createError "Todo not found" 404 None
  end.
Proof.
  unfold get_todo.
  destruct (List.filter (has_id u) t) as [|r rest] eqn:Hf.
  - split; [by apply filter_has_id_nil|reflexivity].
  - destruct (filter_has_id_head _ _ _ _ Hf) as [Hin Hid].
    split; [done|]. split; [done|]. intros Hnd r' Hin' Hid'.
    apply list_elem_of_lookup in Hin as [i Hi]. apply list_elem_of_lookup in Hin' as [j Hj].
    assert (i = j) as ->; [|congruence].
    eapply NoDup_lookup; [exact Hnd| |]; unfold ids; rewrite list_lookup_fmap.
    + by rewrite Hi.
    + rewrite Hj. simpl. congruence.
Qed.


(** X9.  A delete request that is answered with 204 has removed the rows
    of that id and no other, keeping the order of the rest; the id is then
    unknown: reading it and deleting it again are answered with the 404
    response. *)
Theorem delete_request_removes_the_row (t t' : Table) (id : string) :
  delete_request t id = (t', inr tt) ->
  (id ∈ ids t)
  /\ (id ∉ ids t')
  /\ t' `sublist_of` t
  /\ (forall r, r ∈ t' <-> r ∈ t /\ row_id r <> id)
  /\ get_request t' id = inl (mkErrorResponse 404 (Some "Todo not found") None)
  /\ delete_request t' id
     = (t', inl (mkErrorResponse 404 (Some "Todo not found") None)).
Proof.
  unfold delete_request at 1, delete_todo.
  destruct (List.filter (has_id id) t) as [|r rest] eqn:Hf; [discriminate|].
  intros [= <-].
  assert (Hgone : id ∉ ids (List.filter (fun r => negb (has_id id r)) t)).
  { rewrite elem_of_ids. intros (x & [_ Hx]%elem_of_filter_list & Hid).
    unfold has_id in Hx. by rewrite bool_decide_eq_true_2 in Hx. }
  split; [|split; [exact Hgone|split; [|split; [|split]]]].
  - apply elem_of_ids. exists r. by eapply filter_has_id_head.
  - clear. induction t as [|x t IH]; simpl; [done|].
    destruct (negb _); [by apply sublist_skip|by apply sublist_cons].
  - intros x. rewrite elem_of_filter_list. unfold has_id.
    rewrite negb_true_iff, bool_decide_eq_false. done.
  - unfold get_request, get_todo.
    apply filter_has_id_nil in Hgone. by rewrite Hgone.
  - unfold delete_request, delete_todo.
    apply filter_has_id_nil in Hgone. by rewrite Hgone.
Qed.


Lemma count_filter_negb (p : TodoRow -> bool) (t : Table) :
  count p (List.filter (fun r => negb (p r)) t) = 0.
Proof.
  unfold count. induction t as [|r t IH]; simpl; [done|].
  destruct (p r) eqn:E; simpl; [exact IH|]. by rewrite E.
Qed.

Lemma length_filter_partition {A} (p : A -> bool) (l : list A) :
  length l = (length (List.filter p l) + length (List.filter (fun x => negb (p x)) l))%nat.
Proof.
  induction l as [|x l IH]; simpl; [done|]. destruct (p x); simpl; lia.
Qed.

(** X11.  The route that clears completed todos reports the number of
    completed rows, removes them and no other row, and keeps the order of
    the rest; the statistics then count no completed todo, and a second
    request deletes nothing. *)
Theorem clear_completed_removes_completed (t : Table) (now : Z) :
  let (t', c) := clear_completed t in
  deleted c = count row_completed t
  /\ Z.of_nat (length t) = deleted c + Z.of_nat (length t')
  /\ t' `sublist_of` t
  /\ (forall r, r ∈ t' <-> r ∈ t /\ row_completed r = false)
  /\ stats_completed (get_stats t' now) = 0
  /\ stats_total (get_stats t' now) = stats_incomplete (get_stats t now)
  /\ fst (clear_completed t') = t'
  /\ deleted (snd (clear_completed t')) = 0.
Proof.
  unfold clear_completed. cbn [deleted fst snd].
  split; [done|]. split; [|split; [|split; [|split; [|split; [|split]]]]].
  - unfold count. rewrite (length_filter_partition row_completed t). lia.
  - clear. induction t as [|x t IH]; simpl; [done|].
    destruct (negb _); [by apply sublist_skip|by apply sublist_cons].
  - intros r. rewrite elem_of_filter_list. by rewrite negb_true_iff.
  - cbn. apply count_filter_negb.
  - cbn. unfold count.
    assert (H : forall l : Table, List.filter (fun _ => true) l = l).
    { induction l as [|x l IH]; simpl; [done|]. by rewrite IH. }
    rewrite !H. rewrite (length_filter_partition row_completed t). lia.
  - induction t as [|x t IH]; simpl; [done|].
    destruct (row_completed x) eqn:E; simpl; [exact IH|]. by rewrite E, IH.
  - apply count_filter_negb.
Qed.

End RouteFacts.

(** ** The callbacks of the routes with an [:id] segment *)

Section IdFacts.

Variable timestamp_in : string -> option Z.
Variable table_check : string -> option string -> bool.
Variable db_message : DbError -> string.
Variable uuid_in : string -> option string.

Lemma errorHandler_unmarked (message : string) :
  includes message "duplicate key" = false ->
  includes message "violates foreign key" = false ->
  errorHandler (ApiError (Some message) None None)
  = mkErrorResponse 500 (Some "Internal server error") None.
Proof.
  intros H1 H2. unfold errorHandler, message_includes. by rewrite H1, H2.
Qed.

(** X8.  The callback that reads a row, run on the text of an id.  When
    the database reads the text as a uuid, the callback gives a row of the
    table that has this uuid, the only one when ids are unique, and throws
    the 404 error 'Todo not found' exactly when no row has it.  When the
    database refuses the text, the callback throws the error of the
    database, which the handler answers with 500 'Internal server error'
    unless the message carries one of the markers it looks for. *)
Theorem get_callback_finds_the_row (t : Table) (id : string) :
  match uuid_in id, get_callback db_message uuid_in t id with
  | Some u, inr r =>
      (r ∈ t) /\ row_id r = u
      /\ (NoDup (ids t) -> forall r', r' ∈ t -> row_id r' = u -> r' = r)
  | Some u, inl e =>
      (u ∉ ids t)
      /\ e = createError "Todo not found" 404 None
      /\ errorHandler e = not_found
  | None, result =>
      result = inl (db_error db_message (uuid_syntax id))
      /\ (includes (db_message (uuid_syntax id)) "duplicate key" = false ->
          includes (db_message (uuid_syntax id)) "violates foreign key" = false ->
          errorHandler (db_error db_message (uuid_syntax id))
          = mkErrorResponse 500 (Some "Internal server error") None)
  end.
Proof.
  unfold get_callback. destruct (uuid_in id) as [u|].
  - pose proof (get_todo_finds_the_row t u) as H.
    destruct (get_todo t u) as [e|r]; [|exact H].
    destruct H as [Hu ->]. by repeat split.
  - split; [reflexivity|]. apply errorHandler_unmarked.
Qed.

(** X10.  The callbacks that read, toggle, delete and update a row, run on
    the text of an id that the database reads as a uuid no row has, throw
    the 404 error 'Todo not found', which the handler answers as such, and
    leave the table as it was; the update callback does so when the patch
    names a field and its due date, if any, is one the database reads. *)
Theorem unknown_uuid_is_not_found (t : Table) (now : Z) (id u : string) :
  uuid_in id = Some u ->
  u ∉ ids t ->
  let unknown := createError "Todo not found" 404 None in
  errorHandler unknown = not_found
  /\ get_callback db_message uuid_in t id = inl unknown
  /\ toggle_callback table_check db_message uuid_in t now id = (t, inl unknown)
  /\ delete_callback db_message uuid_in t id = (t, inl unknown)
  /\ forall input,
       updates input <> [] ->
       due_date_param timestamp_in (u_due_date input) <> None ->
       update_callback timestamp_in table_check db_message uuid_in t now id input
       = (t, inl unknown).
Proof.
  intros Hu Hid unknown. apply filter_has_id_nil in Hid.
  split; [reflexivity|]. split; [|split; [|split]].
  - unfold get_callback, get_todo. by rewrite Hu, Hid.
  - unfold toggle_callback, toggle_todo. rewrite Hu.
    rewrite ServerFacts.update_where_id_unfold by done. by rewrite Hid.
  - unfold delete_callback, delete_todo. by rewrite Hu, Hid.
  - intros input Hup Hd. unfold update_callback, update_todo. rewrite Hu.
    destruct (updates input); [done|].
    destruct (due_date_param _ _) as [due|]; [|done].
    rewrite ServerFacts.update_where_id_unfold by done. by rewrite Hid.
Qed.

End IdFacts.

(** The stand-in reads a uuid in capitals as the uuid of the row, where a
    comparison of the texts finds no row, and refuses a text that is no
    uuid. *)
Remark get_callback_reads_either_case :
  get_callback no_db_message hyphenated_uuid [uuid_row] upper_uuid = inr uuid_row
  /\ get_todo [uuid_row] upper_uuid = inl (createError "Todo not found" 404 None)
  /\ get_callback no_db_message hyphenated_uuid [uuid_row] "z"
     = inl (db_error no_db_message (uuid_syntax "z")).
Proof. by vm_compute. Qed.

(** ** Statistics *)

Lemma count_priorities (t : Table) :
  count (fun r => bool_decide (row_priority r = high)) t
  + count (fun r => bool_decide (row_priority r = medium)) t
  + count (fun r => bool_decide (row_priority r = low)) t
  = Z.of_nat (length t).
Proof.
  unfold count. induction t as [|r t IH]; simpl; [done|].
  destruct (row_priority r); simpl; lia.
Qed.

Lemma count_all (t : Table) : count (fun _ => true) t = Z.of_nat (length t).
Proof.
  unfold count. induction t as [|r t IH]; simpl; [done|]. lia.
Qed.

(** X12.  [total] is the number of rows, and [byPriority] splits it: there
    is a group for each priority that some row has and for no other, in the
    order high, medium, low; a group counts the rows of its priority, and
    the counts of the groups add up to [total]. *)
Theorem stats_byPriority_partitions_rows (t : Table) (now : Z) :
  let s := get_stats t now in
  stats_total s = Z.of_nat (length t)
  /\ map fst (stats_byPriority s) `sublist_of` [high; medium; low]
  /\ (forall p n, (p, n) ∈ stats_byPriority s <->
        1 <= n /\ n = count (fun r => bool_decide (row_priority r = p)) t)
  /\ foldr Z.add 0 (map snd (stats_byPriority s)) = stats_total s.
Proof.
  intros s. unfold s. cbn [get_stats stats_byPriority stats_total].
  rewrite count_all. split; [reflexivity|].
  rewrite <- (count_priorities t). unfold priority_counts.
  set (ch := count (fun r => bool_decide (row_priority r = high)) t).
  set (cm := count (fun r => bool_decide (row_priority r = medium)) t).
  set (cl := count (fun r => bool_decide (row_priority r = low)) t).
  pose proof (ServerFacts.count_le_length
                (fun r => bool_decide (row_priority r = high)) t) as Hh.
  pose proof (ServerFacts.count_le_length
                (fun r => bool_decide (row_priority r = medium)) t) as Hm.
  pose proof (ServerFacts.count_le_length
                (fun r => bool_decide (row_priority r = low)) t) as Hl.
  fold ch in Hh. fold cm in Hm. fold cl in Hl.
  assert (Hiff : forall p n,
            (p, n) ∈ List.filter (fun g : Priority * Z => 0 <? snd g)
                       [(high, ch); (medium, cm); (low, cl)]
            <-> 1 <= n /\ n = count (fun r => bool_decide (row_priority r = p)) t).
  { intros p n. rewrite elem_of_filter_list. cbn [snd]. rewrite Z.ltb_lt.
    rewrite !elem_of_cons, elem_of_nil. split.
    - intros [[H|[H|[H|[]]]] Hn]; injection H as -> ->; split; (lia || done).
    - intros [Hn ->]. split; [|lia].
      destruct p; [right; right; left|right; left|left]; done. }
  change (map (fun p => (p, count (fun r => bool_decide (row_priority r = p)) t))
            [high; medium; low])
    with [(high, ch); (medium, cm); (low, cl)].
  clearbody ch cm cl. split; [|split; [exact Hiff|]].
  - simpl. destruct (0 <? ch), (0 <? cm), (0 <? cl); simpl;
      repeat (first [apply sublist_nil | apply sublist_skip | apply sublist_cons]).
  - simpl. destruct (0 <? ch) eqn:E1, (0 <? cm) eqn:E2, (0 <? cl) eqn:E3; simpl;
      rewrite ?Z.ltb_lt, ?Z.ltb_ge in *; lia.
Qed.

(** ** Pages of the list *)

Section PageFacts.

Variable ilike : string -> string -> bool.
Variable db_message : DbError -> string.








(** Without distinct [created_at] the order is not determined, and pages
    taken from two orders of the same rows can show a row twice: with a
    limit of one, the first page of one order and the second page of the
    other are the same row. *)
Remark pages_may_repeat_a_row_on_ties :
  ordered_by_created_at_desc twins twins
  /\ ordered_by_created_at_desc twins (reverse twins)
  /\ page_of 1 1 twins = [sample_row "a" false 1]
  /\ page_of 1 2 (reverse twins) = [sample_row "a" false 1].
Proof.
  assert (Hs : forall l : list TodoRow,
            Forall (fun r => row_created_at r = 1) l -> StronglySorted newer_first l).
  { induction l as [|x l IH]; [constructor|].
    intros [Hx Hl]%Forall_cons. constructor; [by apply IH|].
    eapply Forall_impl; [exact Hl|]. unfold newer_first. intros; cbn in *; lia. }
  split; [|split; [|split]].
  - split; [done|]. apply Hs. by repeat constructor.
  - split; [apply reverse_Permutation|]. apply Hs. by repeat constructor.
  - reflexivity.
  - reflexivity.
Qed.

End PageFacts.

(** ** The update route *)

Section PatchFacts.

Variable default_message : ZodIssueCode -> string.
Variable is_datetime : string -> bool.
Variable timestamp_in : string -> option Z.
Variable table_check : string -> option string -> bool.
Variable db_message : DbError -> string.

Lemma set_columns_twice input due now1 now2 r :
  set_columns input due now2 (set_columns input due now1 r) = set_columns input due now2 r.
Proof.
  unfold set_columns. cbn.
  destruct (u_title input), (u_description input), (u_completed input),
    (u_priority input), due; reflexivity.
Qed.

Lemma row_check_set_columns input due now1 now2 r :
  row_check table_check (set_columns input due now1 r)
  = row_check table_check (set_columns input due now2 r).
Proof. reflexivity. Qed.

Lemma on_id_twice id (f g : TodoRow -> TodoRow) (t : Table) :
  (forall r, row_id (f r) = row_id r) ->
  (forall r, g (f r) = g r) ->
  map (on_id id g) (map (on_id id f) t) = map (on_id id g) t.
Proof.
  intros Hf Hg. rewrite map_map. apply map_ext. intros r.
  unfold on_id at 1. rewrite ServerFacts.has_id_on_id by apply Hf.
  unfold on_id. destruct (has_id id r); [apply Hg|reflexivity].
Qed.

(** X14.  The update route is idempotent but for [updated_at]: sending an
    accepted patch a second time is answered with the same row at the later
    instant, and leaves the table that sending it once at that instant
    would have left. *)
Theorem update_todo_twice_is_once
    (t t1 : Table) (now1 now2 : Z) (id : string) (input : UpdateTodoInput)
    (r1 : TodoRow) :
  update_todo timestamp_in table_check db_message t now1 id input = (t1, inr r1) ->
  exists t2 r2,
    update_todo timestamp_in table_check db_message t1 now2 id input = (t2, inr r2)
    /\ update_todo timestamp_in table_check db_message t now2 id input = (t2, inr r2)
    /\ only_changed [] now2 r1 r2.
Proof.
  unfold update_todo. destruct (updates input) eqn:Hu; [discriminate|].
  destruct (due_date_param _ _) as [due|]; [|discriminate].
  assert (Hid : forall now r, row_id (set_columns input due now r) = row_id r) by done.
  assert (Hck : forall now,
            forallb (row_check table_check)
              (map (set_columns input due now) (List.filter (has_id id) t))
            = forallb (row_check table_check)
                (map (set_columns input due now1) (List.filter (has_id id) t))).
  { intros now. induction (List.filter (has_id id) t) as [|x xs IH]; [done|].
    simpl. by rewrite IH. }
  rewrite (ServerFacts.update_where_id_unfold table_check _ id t (Hid now1)).
  destruct (forallb _ _) eqn:Hc1; [|discriminate].
  destruct (List.filter (has_id id) t) as [|r0 rest] eqn:Hf; [discriminate|].
  cbn [map]. intros [= <- <-].
  rewrite !ServerFacts.update_where_id_unfold by done.
  rewrite ServerFacts.filter_has_id_map by done.
  rewrite (on_id_twice id _ _ t (Hid now1) (fun r => set_columns_twice input due now1 now2 r)).
  rewrite map_map.
  rewrite (map_ext _ _ (fun r => set_columns_twice input due now1 now2 r)).
  rewrite Hf in *. rewrite (Hck now2). cbn [map].
  eexists _, _. split; [reflexivity|].
  split; [reflexivity|]. unfold only_changed. cbn.
  destruct (u_title input), (u_description input), (u_completed input),
    (u_priority input), due; cbn; done.
Qed.

(** X15.  The row that the update callback returns, run on the patch that
    the schema reads from a body, carries every value that the body names:
    title, priority and completion as given, and a null description or due
    date as no value. *)
Theorem update_todo_stores_the_body
    (t t' : Table) (now : Z) (id : string) (fields : gmap string Json)
    (input : UpdateTodoInput) (r : TodoRow) :
  updateTodoSchema default_message is_datetime (JObj fields) = inr input ->
  update_todo timestamp_in table_check db_message t now id input = (t', inr r) ->
  (r ∈ t')
  /\ row_id r = id
  /\ (forall v, fields !! "title" = Some v -> v = JStr (row_title r))
  /\ (forall v, fields !! "completed" = Some v -> v = JBool (row_completed r))
  /\ (forall v, fields !! "priority" = Some v ->
        exists s, v = JStr s /\ priority_of_string s = Some (row_priority r))
  /\ (forall v, fields !! "description" = Some v ->
        match row_description r with Some d => v = JStr d | None => v = JNull end)
  /\ (fields !! "due_date" = Some JNull -> row_due_date r = None).
Proof.
  intros Hs.
  unfold update_todo. destruct (updates input); [discriminate|].
  destruct (due_date_param _ _) as [due|] eqn:Hd; [|discriminate].
  destruct (update_where_id _ _ _ _) as [?|[t1 [|r1 rest]]] eqn:Hu; try discriminate.
  intros [= <- <-].
  assert (Hin : r1 ∈ List.filter (has_id id) t1).
  { unfold update_where_id in Hu. destruct (forallb _ _); [|discriminate].
    injection Hu as <- Hr. rewrite Hr. left. }
  apply elem_of_filter_list in Hin as [Hin Hid].
  unfold has_id in Hid. apply bool_decide_eq_true in Hid.
  split; [done|]. split; [done|].
  destruct (ServerFacts.write_shape table_check (set_columns input due now) id t t1 r1 rest
              ltac:(done) Hu)
    as (_ & old & _ & _ & ->).
  unfold updateTodoSchema in Hs.
  destruct (title_optional _ _) as [?|ti] eqn:Ht;
    destruct (description_optional_nullable _ _) as [?|de] eqn:Hde;
    destruct (priority_optional _ _) as [?|pr] eqn:Hp;
    destruct (due_date_optional_nullable _ _ _) as [?|dd] eqn:Hdd;
    destruct (completed_optional _ _) as [?|co] eqn:Hc; try discriminate.
  injection Hs as <-. cbn in *.
  split; [|split; [|split; [|split]]].
  - intros v Hv. rewrite Hv in Ht. unfold title_optional in Ht.
    destruct v; try discriminate.
    destruct (_ <? 1); [discriminate|]. destruct (500 <? _); [discriminate|].
    by injection Ht as <-.
  - intros v Hv. rewrite Hv in Hc. unfold completed_optional in Hc.
    destruct v; try discriminate. by injection Hc as <-.
  - intros v Hv. rewrite Hv in Hp. unfold priority_optional in Hp.
    destruct v as [| | |str| |]; try discriminate. exists str. split; [done|].
    destruct (priority_of_string str); [|discriminate]. by injection Hp as <-.
  - intros v Hv. rewrite Hv in Hde. unfold description_optional_nullable in Hde.
    destruct v; try discriminate.
    + by injection Hde as <-.
    + destruct (5000 <? _); [discriminate|]. by injection Hde as <-.
  - intros Hv. rewrite Hv in Hdd. cbn in Hdd. injection Hdd as <-.
    cbn in Hd. by injection Hd as <-.
Qed.

End PatchFacts.

(** ** The id validator and the list route *)

(** X16.  The uuid schema lets through exactly the strings that pass the
    uuid test, unchanged; but the id validator of the routes with an [:id]
    segment hands it the params object, not the id: whatever the id, the
    request is answered with the 400 response 'Validation failed' and one
    issue of empty path. *)
Theorem id_routes_answer_validation_failed
    (default_message : ZodIssueCode -> string) (is_uuid : string -> bool) (id : string) :
  (forall s v, uuid_param_schema default_message is_uuid (JStr s) = inr v
               <-> is_uuid s = true /\ v = s)
  /\ (forall s, is_uuid s = false ->
        uuid_param_schema default_message is_uuid (JStr s)
        = inl [mkIssue [] invalid_string "Invalid ID format"])
  /\ exists e,
       validateParams_uuid default_message is_uuid id = inl e
       /\ errorHandler e
          = mkErrorResponse 400 (Some "Validation failed")
              (Some (IssueList [("", default_message invalid_type)])).
Proof.
  split; [|split].
  - intros s v. unfold uuid_param_schema. destruct (is_uuid s).
    + split; [by intros [= <-]|by intros [_ ->]].
    + split; [done|by intros [? _]].
  - intros s Hs. unfold uuid_param_schema. by rewrite Hs.
  - eexists. split; [apply ServerFacts.validateParams_uuid_refuses|reflexivity].
Qed.


Section ListRowFacts.

Variable ilike : string -> string -> bool.
Variable db_message : DbError -> string.

(** X18.  The rows of a list answer are rows of the table, none of them
    twice when ids are unique and none older than a row after it; each has
    the completion and the priority that the query names, and matches the
    search pattern in its title or its description when the query has a
    search that is not empty. *)
Theorem list_rows_match_newest_first
    (t : Table) (q : ListTodosQuery) (response : ListResponse) :
  list_todos ilike db_message t q = inr response ->
  StronglySorted newer_first (data response)
  /\ (NoDup (ids t) -> NoDup (ids (data response)))
  /\ forall r, r ∈ data response ->
       r ∈ t
       /\ (forall c, q_completed q = Some c -> row_completed r = c)
       /\ (forall p, q_priority q = Some p -> row_priority r = p)
       /\ (forall s, q_search q = Some s -> s <> "" ->
             ilike (row_title r) ("%" ++ s ++ "%") = true
             \/ exists d, row_description r = Some d
                  /\ ilike d ("%" ++ s ++ "%") = true).
Proof.
  intros H. destruct (ServerFacts.list_todos_data _ _ _ _ _ H) as [Hs Hr].
  split; [exact Hs|]. split.
  - intros Hnd. apply ServerFacts.list_todos_inr in H as (_ & _ & offset & ->).
    eapply (sublist_NoDup _ (ids (order_by_created_at_desc (List.filter _ t)))).
    + unfold ids.
      rewrite (ServerFacts.order_by_created_at_desc_Permutation (List.filter _ t)).
      by apply NoDup_filter_ids.
    + unfold ids. apply fmap_sublist, ServerFacts.limit_offset_sublist.
  - intros r Hin. destruct (Hr r Hin) as [Ht Hw]. split; [exact Ht|].
    unfold list_where in Hw. apply andb_prop in Hw as [[Hc Hp]%andb_prop Hsr].
    split; [|split].
    + intros c Hq. rewrite Hq in Hc. by apply Bool.eqb_prop in Hc.
    + intros p Hq. rewrite Hq in Hp. by apply bool_decide_eq_true in Hp.
    + intros s Hq Hne. rewrite Hq in Hsr.
      destruct (String.eqb s "") eqn:E; [by apply String.eqb_eq in E|].
      apply orb_prop in Hsr as [Hl|Hl]; [by left|right].
      destruct (row_description r) as [d|]; [|discriminate]. by exists d.
Qed.

End ListRowFacts.


(** ** Instances *)

Lemma post_todo_appends_row_witness :
  ("d" ∉ ids three_rows)
  /\ row_created_at milk_row = 9
  /\ (sample_row "a" false 1 ∈ (three_rows ++ [milk_row])%list ->
      row_id (sample_row "a" false 1) = "d" -> sample_row "a" false 1 = milk_row).
Proof.
  assert (H : post_todo no_message any_datetime any_timestamp no_check no_db_message
                dup_message three_rows 9 "d" milk_body
              = ((three_rows ++ [milk_row])%list, inr milk_row))
    by (vm_compute; reflexivity).
  destruct (post_todo_appends_row _ _ _ _ _ _ _ _ _ _ _ _ H)
    as (_ & Hf & _ & Hc & _ & _ & _ & Hg).
  split; [exact Hf|]. split; [exact Hc|]. apply Hg.
Defined.

Lemma failed_request_leaves_table_witness :
  fst (serve no_message any_datetime any_timestamp no_check no_db_message dup_message
         three_rows 9 "d" (PatchTodo "a" empty_body))
  = three_rows.
Proof.
  assert (H : serve no_message any_datetime any_timestamp no_check no_db_message
                dup_message three_rows 9 "d" (PatchTodo "a" empty_body)
              = (fst (serve no_message any_datetime any_timestamp no_check
                        no_db_message dup_message three_rows 9 "d"
                        (PatchTodo "a" empty_body)),
                 Failed (mkErrorResponse 400 (Some "No fields to update") None)))
    by (vm_compute; reflexivity).
  exact (failed_request_leaves_table _ _ _ _ _ _ _ _ _ _ _ _ H).
Defined.

Lemma serve_keeps_table_constraints_witness :
  NoDup (ids (fst (serve no_message any_datetime any_timestamp no_check no_db_message
                     dup_message three_rows 9 "d" (PostTodo milk_body))))
  /\ forallb (row_check no_check)
       (fst (serve no_message any_datetime any_timestamp no_check no_db_message
               dup_message three_rows 9 "d" (PostTodo milk_body))) = true.
Proof.
  apply (serve_keeps_table_constraints no_message any_datetime any_timestamp no_check
           no_db_message dup_message three_rows 9 "d" (PostTodo milk_body)).
  - compute_done.
  - vm_compute. reflexivity.
Defined.

Lemma delete_request_removes_the_row_witness :
  get_request two_rows "b" = inl not_found.
Proof.
  assert (H : delete_request three_rows "b" = (two_rows, inr tt))
    by (vm_compute; reflexivity).
  destruct (delete_request_removes_the_row _ _ _ H) as (_ & _ & _ & _ & Hg & _).
  exact Hg.
Defined.

Lemma unknown_uuid_is_not_found_witness :
  toggle_callback no_check no_db_message hyphenated_uuid [uuid_row] 9 other_uuid
  = ([uuid_row], inl (createError "Todo not found" 404 None)).
Proof.
  assert (H1 : hyphenated_uuid other_uuid = Some (lower other_uuid))
    by (vm_compute; reflexivity).
  assert (H2 : lower other_uuid ∉ ids [uuid_row]) by compute_done.
  destruct (unknown_uuid_is_not_found any_timestamp no_check no_db_message
              hyphenated_uuid [uuid_row] 9 other_uuid _ H1 H2) as (_ & _ & Ht & _).
  exact Ht.
Defined.


Lemma update_todo_twice_is_once_witness :
  exists t2 r2,
    update_todo any_timestamp no_check no_db_message bread_rows 9 "a" bread_patch
    = (t2, inr r2)
    /\ update_todo any_timestamp no_check no_db_message three_rows 9 "a" bread_patch
       = (t2, inr r2)
    /\ only_changed [] 9 bread_row r2.
Proof.
  assert (H : update_todo any_timestamp no_check no_db_message three_rows 7 "a"
                bread_patch
              = (bread_rows, inr bread_row)) by (vm_compute; reflexivity).
  exact (update_todo_twice_is_once _ _ _ _ _ _ 9 _ _ _ H).
Defined.

Lemma update_todo_stores_the_body_witness :
  JStr "Buy bread" = JStr (row_title bread_row).
Proof.
  assert (Hs : updateTodoSchema no_message any_datetime (JObj bread_fields)
               = inr bread_patch) by (vm_compute; reflexivity).
  assert (H : update_todo any_timestamp no_check no_db_message three_rows 7 "a"
                bread_patch
              = (bread_rows, inr bread_row)) by (vm_compute; reflexivity).
  destruct (update_todo_stores_the_body _ _ _ _ _ _ _ _ _ _ _ _ Hs H)
    as (_ & _ & Ht & _).
  apply Ht. vm_compute. reflexivity.
Defined.

Lemma list_rows_match_newest_first_witness :
  StronglySorted newer_first (page_rows no_match no_db_message forty_rows open_by_five 1).
Proof.
  assert (H : list_todos no_match no_db_message forty_rows
                (mkListTodosQuery (Some false) None None (Some 1) (Some 5))
              = inr (mkListResponse
                       (page_rows no_match no_db_message forty_rows open_by_five 1)
                       (mkPagination 1 5 17 (Some 4))))
    by (vm_compute; reflexivity).
  destruct (list_rows_match_newest_first _ _ _ _ _ H) as [Hs _].
  exact Hs.
Defined.



End ServerExtraFacts.

(** * More properties of the client *)

Module ClientExtraFacts.
Import Client ClientExtra.

(** ** The retry rule *)

Lemma error_object_has_no_response (e : ApiClientError) :
  optional_member (Some (error_object e)) "response" = None.
Proof.
  unfold error_object, optional_member.
  rewrite !lookup_insert_ne by done.
  destruct (details e); [by rewrite lookup_singleton_ne|by rewrite lookup_empty].
Qed.

(** X19.  The retry rule of queries looks for the status under a member
    [response], which an [ApiClientError] does not have: every failure of
    the transport client is retried until the third, whatever its
    [statusCode], also a 404; only an error that carries a response is
    refused a retry on a status from 400 to 499. *)
Theorem retry_ignores_statusCode (e : ApiClientError) (failureCount : Z) :
  retry failureCount (error_object e) = Some (failureCount <? 3)
  /\ retry 0 (error_object (mkApiClientError "Todo not found" 404 None)) = Some true
  /\ forall status,
       retry failureCount (error_with_response status)
       = Some (if (400 <=? status) && (status <? 500) then false
               else failureCount <? 3).
Proof.
  split; [|split].
  - unfold retry. by rewrite error_object_has_no_response.
  - unfold retry. by rewrite error_object_has_no_response.
  - intros status. unfold retry, error_with_response, optional_member.
    rewrite lookup_singleton_eq. cbn. rewrite lookup_singleton_eq. reflexivity.
Qed.

(** ** Toasts *)

Lemma elem_of_without (id : string) (toasts : list Toast) (toast : Toast) :
  toast ∈ without id toasts <-> toast ∈ toasts /\ toast_id toast <> id.
Proof.
  unfold without. rewrite list_elem_of_In, filter_In, <- list_elem_of_In.
  by rewrite negb_true_iff, bool_decide_eq_false.
Qed.

Lemma elem_of_delete_other {A} (l : list A) (i : nat) (x y : A) :
  x ∈ l -> l !! i = Some y -> x <> y -> x ∈ delete i l.
Proof.
  intros [j Hj]%list_elem_of_lookup Hi Hne.
  destruct (decide (j < i)%nat) as [Hlt|Hge].
  - apply list_elem_of_lookup. exists j. by rewrite list_lookup_delete_lt.
  - assert (j <> i) by congruence.
    apply list_elem_of_lookup. exists (j - 1)%nat.
    rewrite list_lookup_delete_ge by lia. by replace (S (j - 1)) with j by lia.
Qed.

Lemma will_disappear_step (st : ToastState) (ev : ToastEvent) :
  will_disappear st -> will_disappear (toast_step st ev).
Proof.
  intros Hst. destruct ev as [type msg duration now random|id|i]; cbn [toast_step].
  - unfold showToast. intros toast. cbn [shown timeouts].
    rewrite elem_of_app, list_elem_of_singleton. intros [Hin| ->] Hd.
    + destruct (0 <? _); [apply elem_of_app; left|]; by apply Hst.
    + cbn in Hd |- *. rewrite (proj2 (Z.ltb_lt _ _) Hd).
      apply elem_of_app. right. by apply list_elem_of_singleton.
  - intros toast [Hin _]%elem_of_without Hd. by apply Hst.
  - unfold timeout_runs. destruct (timeouts st !! i) as [id|] eqn:Hi; [|done].
    intros toast [Hin Hne]%elem_of_without Hd. cbn [timeouts].
    eapply elem_of_delete_other; [by apply Hst|exact Hi|done].
Qed.

(** X20.  Whatever toasts were shown and removed and whichever timeouts
    have run, every toast on display that has a positive duration still has
    a pending timeout for its id, so it will be removed; and when a timeout
    runs, no toast of its id stays on display. *)
Theorem toasts_on_display_have_a_timeout (events : list ToastEvent) :
  will_disappear (toast_run events)
  /\ forall i id,
       timeouts (toast_run events) !! i = Some id ->
       id ∉ map toast_id (shown (timeout_runs i (toast_run events))).
Proof.
  split.
  - unfold toast_run.
    assert (H : forall st, will_disappear st ->
                  will_disappear (fold_left toast_step events st)).
    { induction events as [|ev events IH]; intros st Hst; [done|].
      cbn. apply IH. by apply will_disappear_step. }
    apply H. intros toast Hin. by apply elem_of_nil in Hin.
  - intros i id Hi. unfold timeout_runs. rewrite Hi. cbn [shown].
    intros (toast & Hid & Hin)%list_elem_of_fmap.
    apply elem_of_without in Hin as [_ Hne]. congruence.
Qed.

(** ** The optimistic mutations *)

Section OptimisticFacts.

Variable toISOString : Z -> string.

Lemma lists_match_is_not_detail (key : QueryKey) (id : string) :
  matches queryKeys.todos_lists key = true -> key <> queryKeys.todos_detail id.
Proof.
  intros Hm ->. by rewrite ClientFacts.lists_do_not_match_detail in Hm.
Qed.


Lemma setQueryData_absent (key : QueryKey) (f : Todo -> Todo) (c : QueryCache) :
  getQueryData key c = None -> setQueryData key (on_todo f) c = c.
Proof. intros H. unfold setQueryData. by rewrite H. Qed.

Lemma getQueryData_rollback_other (m : Mutation) (context : Context) (c : QueryCache)
    (key : QueryKey) :
  matches queryKeys.todos_lists key = false ->
  (forall id, target m = Some id -> key <> queryKeys.todos_detail id) ->
  getQueryData key (rollback m context c) = getQueryData key c.
Proof.
  intros Hm Hk. unfold rollback.
  destruct m as [?|id ?|?|id]; destruct (previousTodos context);
    rewrite ?ClientFacts.getQueryData_setQueriesData_other by done; try done;
    destruct (previousTodo context);
    rewrite ?ClientFacts.getQueryData_setQueryData_other by (by apply Hk); done.
Qed.

Lemma getQueryData_onMutate_other (m : Mutation) (now : Z) (st : ClientState)
    (key : QueryKey) :
  matches queryKeys.todos_lists key = false ->
  (forall id, target m = Some id -> key <> queryKeys.todos_detail id) ->
  getQueryData key (cache (fst (onMutate toISOString m now st)))
  = getQueryData key (cache st).
Proof.
  intros Hm Hk.
  destruct m as [?|id ?|?|id]; cbn [onMutate fst on_cache cache];
    rewrite ClientFacts.getQueryData_setQueriesData_other by done; try done;
    rewrite ClientFacts.getQueryData_setQueryData_other by (by apply Hk); done.
Qed.

(** X21.  A mutation whose transport call fails leaves the data of every
    query outside the list prefix as it was before the mutation, the detail
    query of its target included; the list queries keep the optimistic data
    unless the cache holds data under the key of the list prefix itself;
    and one error toast shows the message of the failure. *)
Theorem failed_mutation_restores_all_but_lists
    (m : Mutation) (now : Z) (e : ApiClientError) (st : ClientState) :
  let st' := mutate toISOString m now (Rejected e) st in
  (forall key, matches queryKeys.todos_lists key = false ->
     getQueryData key (cache st') = getQueryData key (cache st))
  /\ (getQueryData queryKeys.todos_lists (cache st) = None ->
      forall key, matches queryKeys.todos_lists key = true ->
        getQueryData key (cache st')
        = getQueryData key (cache (fst (onMutate toISOString m now st))))
  /\ toasts st' = (toasts st ++ [(error, message e)])%list.
Proof.
  intros st'. split; [|split].
  - intros key Hm.
    destruct (target m) as [id|] eqn:Ht;
      [destruct (decide (key = queryKeys.todos_detail id)) as [->|Hne]|].
    + by apply ClientFacts.failed_mutation_restores_detail.
    + unfold st'. rewrite ClientFacts.cache_of_failed_mutate,
        ClientFacts.getQueryData_fold_invalidate.
      unfold failed_cache.
      rewrite getQueryData_rollback_other, getQueryData_onMutate_other;
        try done; intros id'; rewrite Ht; congruence.
    + unfold st'. rewrite ClientFacts.cache_of_failed_mutate,
        ClientFacts.getQueryData_fold_invalidate.
      unfold failed_cache.
      rewrite getQueryData_rollback_other, getQueryData_onMutate_other;
        try done; intros id'; rewrite Ht; congruence.
  - intros Hnone key Hm. unfold st'.
    rewrite ClientFacts.cache_of_failed_mutate,
      ClientFacts.getQueryData_fold_invalidate.
    unfold failed_cache.
    destruct m as [?|id ?|?|id];
      cbn [onMutate fst snd rollback previousTodos previousTodo];
      rewrite Hnone; try done;
      destruct (getQueryData (queryKeys.todos_detail id) (cache st)); try done;
      by rewrite ClientFacts.getQueryData_setQueryData_other
        by (by apply lists_match_is_not_detail).
  - unfold st', mutate.
    destruct (onMutate toISOString m now st) as [st1 context] eqn:E.
    assert (Ht : toasts st1 = toasts st).
    { replace st1 with (fst (onMutate toISOString m now st)) by (by rewrite E).
      by destruct m. }
    rewrite <- Ht. by destruct m.
Qed.




Lemma map_id_toggled_twice (id : string) (now1 now2 : Z) (l : list Todo) :
  map completed (map_id id (toggled toISOString now2)
                   (map_id id (toggled toISOString now1) l))
  = map completed l
  /\ map todo_id (map_id id (toggled toISOString now2)
                    (map_id id (toggled toISOString now1) l))
     = map todo_id l.
Proof.
  unfold map_id. rewrite !map_map. split; apply map_ext; intros todo;
    destruct (decide (todo_id todo = id)) as [E|E]; cbn;
    rewrite ?decide_True by done; rewrite ?decide_False by done; cbn;
    by rewrite ?negb_involutive.
Qed.


End OptimisticFacts.



End ClientExtraFacts.

(** * Properties of the standalone front end *)

Module HelpersFacts.
Import Client Helpers.

Lemma filter_filter_comm {A} (p q : A -> bool) (l : list A) :
  List.filter p (List.filter q l) = List.filter q (List.filter p l).
Proof.
  induction l as [|x l IH]; simpl; [done|].
  destruct (q x) eqn:Eq, (p x) eqn:Ep; simpl; rewrite ?Eq, ?Ep, ?IH; done.
Qed.

Lemma filter_sublist_of {A} (p : A -> bool) (l : list A) :
  List.filter p l `sublist_of` l.
Proof.
  induction l as [|x l IH]; simpl; [done|].
  destruct (p x); [by apply sublist_skip|by apply sublist_cons].
Qed.

Lemma elem_of_filter_bool {A} (p : A -> bool) (l : list A) (x : A) :
  x ∈ List.filter p l <-> x ∈ l /\ p x = true.
Proof. rewrite !list_elem_of_In. apply filter_In. Qed.

Section DisplayFacts.

Variable trim : string -> string.
Variable toLowerCase : string -> string.

Lemma filterTodos_sublist (todos : list Todo) (filter : TodoFilter) :
  filterTodos todos filter `sublist_of` todos.
Proof. destruct filter; [done| |]; apply filter_sublist_of. Qed.

Lemma searchTodos_sublist (todos : list Todo) (query : string) :
  searchTodos trim toLowerCase todos query `sublist_of` todos.
Proof.
  unfold searchTodos. destruct (String.eqb _ _); [done|apply filter_sublist_of].
Qed.

(** X25.  The todos on display are todos of the state in their order; each
    has the completion that the filter names and, under a query that is
    not blank, the query in lower case as a substring of its title or of
    its description in lower case; filtering and searching can be done in
    either order. *)
Theorem displayedTodos_selects
    (todos : list Todo) (filter : TodoFilter) (searchQuery : string) :
  let shown := displayedTodos trim toLowerCase todos filter searchQuery in
  shown `sublist_of` todos
  /\ (forall todo, todo ∈ shown <->
        todo ∈ todos
        /\ match filter with
           | All => True
           | Active => completed todo = false
           | Completed => completed todo = true
           end
        /\ (trim searchQuery <> "" ->
            (exists pre post,
               toLowerCase (title todo) = pre ++ toLowerCase searchQuery ++ post)
            \/ (exists d pre post,
                  description todo = Some d
                  /\ toLowerCase d = pre ++ toLowerCase searchQuery ++ post)))
  /\ shown = filterTodos (searchTodos trim toLowerCase todos searchQuery) filter.
Proof.
  intros shown. unfold shown, displayedTodos. split; [|split].
  - etransitivity; [apply searchTodos_sublist|apply filterTodos_sublist].
  - intros todo. unfold searchTodos.
    assert (Hf : todo ∈ filterTodos todos filter <->
                 todo ∈ todos
                 /\ match filter with
                    | All => True
                    | Active => completed todo = false
                    | Completed => completed todo = true
                    end).
    { destruct filter; cbn; rewrite ?elem_of_filter_bool, ?negb_true_iff; tauto. }
    destruct (String.eqb (trim searchQuery) "") eqn:E.
    + apply String.eqb_eq in E. rewrite Hf. split; [|tauto].
      intros [H1 H2]. split; [done|]. split; [done|]. by intros [].
    + apply String.eqb_neq in E. rewrite elem_of_filter_bool, Hf.
      unfold search_hit. rewrite orb_true_iff.
      rewrite ServerExtraFacts.includes_spec.
      assert (Hd : match description todo with
                   | Some d => includes (toLowerCase d) (toLowerCase searchQuery)
                   | None => false
                   end = true
                   <-> exists d pre post,
                         description todo = Some d
                         /\ toLowerCase d = pre ++ toLowerCase searchQuery ++ post).
      { destruct (description todo) as [d|].
        - rewrite ServerExtraFacts.includes_spec. split.
          + intros (pre & post & H). by exists d, pre, post.
          + intros (d' & pre & post & [= <-] & H). by exists pre, post.
        - split; [done|]. by intros (d' & pre & post & [=] & _). }
      rewrite Hd. tauto.
  - unfold searchTodos. destruct (String.eqb _ _); [done|].
    destruct filter; cbn; [done| |]; apply filter_filter_comm.
Qed.

End DisplayFacts.

(** ** Statistics *)

Lemma fold_increment (todos : list Todo) (acc : PriorityCounts) :
  let r := fold_left (fun acc todo => increment acc (priority todo)) todos acc in
  count_low r
  = count_low acc + Z.of_nat (length (List.filter (fun t => bool_decide (priority t = low)) todos))
  /\ count_medium r
     = count_medium acc
       + Z.of_nat (length (List.filter (fun t => bool_decide (priority t = medium)) todos))
  /\ count_high r
     = count_high acc
       + Z.of_nat (length (List.filter (fun t => bool_decide (priority t = high)) todos)).
Proof.
  revert acc. induction todos as [|x todos IH]; intros acc; cbn -[Z.add].
  - lia.
  - destruct (IH (increment acc (priority x))) as (H1 & H2 & H3).
    rewrite H1, H2, H3. destruct (priority x); simpl; lia.
Qed.

Lemma length_completed_active (todos : list Todo) :
  length todos
  = (length (List.filter (fun t => completed t) todos)
     + length (List.filter (fun t => negb (completed t)) todos))%nat.
Proof.
  induction todos as [|x l IH]; simpl; [done|]. destruct (completed x); simpl; lia.
Qed.

(** X26.  The statistics of the front end fit the list: [completed] and
    [active] are the lengths of the two filtered lists and add up to
    [total]; each of the three counts by priority is the number of todos
    of that priority, and the three add up to [total] too. *)
Theorem calculateStats_counts (todos : list Todo) :
  let s := calculateStats todos in
  app_total s = Z.of_nat (length todos)
  /\ app_completed s = Z.of_nat (length (filterTodos todos Completed))
  /\ app_active s = Z.of_nat (length (filterTodos todos Active))
  /\ app_completed s + app_active s = app_total s
  /\ count_low (app_byPriority s)
     = Z.of_nat (length (List.filter (fun t => bool_decide (priority t = low)) todos))
  /\ count_medium (app_byPriority s)
     = Z.of_nat (length (List.filter (fun t => bool_decide (priority t = medium)) todos))
  /\ count_high (app_byPriority s)
     = Z.of_nat (length (List.filter (fun t => bool_decide (priority t = high)) todos))
  /\ count_low (app_byPriority s) + count_medium (app_byPriority s)
     + count_high (app_byPriority s) = app_total s.
Proof.
  intros s. unfold s, calculateStats. cbn -[Z.add Z.sub].
  destruct (fold_increment todos (mkPriorityCounts 0 0 0)) as (H1 & H2 & H3).
  cbn -[Z.add Z.sub] in H1, H2, H3. rewrite H1, H2, H3.
  pose proof (length_completed_active todos) as Hp.
  assert (Hq : (length (List.filter (fun t => bool_decide (priority t = low)) todos)
                + length (List.filter (fun t => bool_decide (priority t = medium)) todos)
                + length (List.filter (fun t => bool_decide (priority t = high)) todos))%nat
               = length todos).
  { clear. induction todos as [|x l IH]; simpl; [done|].
    destruct (priority x); simpl; lia. }
  repeat split; lia.
Qed.

(** ** Dates *)

Section DateFacts.

Variable Date_parse : string -> option Z.
Variable getFullYear : Z -> Z.
Variable toLocaleDateString : Z -> bool -> string.

Lemma diffDays_unique (date now k : Z) :
  (k - 1) * day < date - now <= k * day -> diffDays date now = k.
Proof.
  intros Hk. unfold diffDays.
  pose proof (ServerFacts.Math_ceil_div_spec (date - now) day ltac:(done)) as Hd.
  assert (Hday : 0 < day) by done. nia.
Qed.

Lemma formatDate_of_diffDays (s : string) (date now k : Z) :
  Date_parse s = Some date ->
  (k - 1) * day < date - now <= k * day ->
  formatDate Date_parse getFullYear toLocaleDateString s now
  = if k =? 0 then "Today"
    else if k =? 1 then "Tomorrow"
    else if k =? -1 then "Yesterday"
    else if (0 <? k) && (k <=? 7) then "In " ++ pretty k ++ " days"
    else if (k <? 0) && (-7 <=? k) then pretty (Z.abs k) ++ " days ago"
    else toLocaleDateString date (negb (getFullYear date =? getFullYear now)).
Proof.
  intros Hp Hk. unfold formatDate. rewrite Hp. cbn zeta.
  by rewrite (diffDays_unique date now k Hk).
Qed.

(** X27.  The label of a date counts started days from the reading of the
    clock: 'Today' is an instant of the last 24 hours, the present one
    included, and any later instant up to 24 hours ahead is 'Tomorrow';
    'Yesterday' is from 24 to 48 hours back, and [n] days ahead or back,
    for [n] from 2 to 7, are counted the same way. *)
Theorem formatDate_counts_started_days (s : string) (date now : Z) :
  Date_parse s = Some date ->
  let label := formatDate Date_parse getFullYear toLocaleDateString s now in
  (now - day < date <= now -> label = "Today")
  /\ (now < date <= now + day -> label = "Tomorrow")
  /\ (now - 2 * day < date <= now - day -> label = "Yesterday")
  /\ (forall n, 2 <= n <= 7 ->
        now + (n - 1) * day < date <= now + n * day ->
        label = "In " ++ pretty n ++ " days")
  /\ (forall n, 2 <= n <= 7 ->
        now - (n + 1) * day < date <= now - n * day ->
        label = pretty n ++ " days ago").
Proof.
  intros Hp label. unfold label. split; [|split; [|split; [|split]]].
  - intros H. by rewrite (formatDate_of_diffDays s date now 0 Hp) by lia.
  - intros H. by rewrite (formatDate_of_diffDays s date now 1 Hp) by lia.
  - intros H. by rewrite (formatDate_of_diffDays s date now (-1) Hp) by lia.
  - intros n Hn H. rewrite (formatDate_of_diffDays s date now n Hp) by lia.
    destruct (n =? 0) eqn:E0; [lia|]. destruct (n =? 1) eqn:E1; [lia|].
    destruct (n =? -1) eqn:E2; [lia|].
    destruct (0 <? n) eqn:E3; [|lia]. destruct (n <=? 7) eqn:E4; [|lia]. done.
  - intros n Hn H. rewrite (formatDate_of_diffDays s date now (- n) Hp) by lia.
    destruct (- n =? 0) eqn:E0; [lia|]. destruct (- n =? 1) eqn:E1; [lia|].
    destruct (- n =? -1) eqn:E2; [lia|].
    destruct (0 <? - n) eqn:E3; [lia|].
    destruct (- n <? 0) eqn:E4; [|lia]. destruct (-7 <=? - n) eqn:E5; [|lia].
    cbn [andb]. by rewrite Z.abs_opp, Z.abs_eq by lia.
Qed.

(** X28.  A todo is overdue exactly when it is not completed and its due
    date is a date before the reading of the clock; the badge of an overdue
    todo never counts days ahead, and a todo that fell due within the last
    24 hours carries the overdue mark with the label 'Today'. *)
Theorem due_badge_of_overdue (todo : Todo) (now : Z) :
  (isOverdue Date_parse todo now = true
   <-> completed todo = false
       /\ exists s date, due_date todo = Some s /\ s <> ""
            /\ Date_parse s = Some date /\ date < now)
  /\ (forall s date,
        due_date todo = Some s -> Date_parse s = Some date ->
        isOverdue Date_parse todo now = true ->
        diffDays date now <= 0)
  /\ (forall s date,
        due_date todo = Some s -> s <> "" -> Date_parse s = Some date ->
        completed todo = false ->
        now - day < date < now ->
        due_badge Date_parse getFullYear toLocaleDateString todo now
        = Some (true, "Today")).
Proof.
  split; [|split].
  - unfold isOverdue. destruct (due_date todo) as [s|].
    + destruct (String.eqb s "") eqn:Es; cbn [orb].
      * apply String.eqb_eq in Es. split; [done|].
        intros (_ & s' & date & [= <-] & Hne & _). done.
      * apply String.eqb_neq in Es. destruct (completed todo); [split; [done|by intros []]|].
        destruct (Date_parse s) as [date|] eqn:Hd.
        -- rewrite Z.ltb_lt. split.
           ++ intros H. split; [done|]. by exists s, date.
           ++ intros (_ & s' & date' & [= <-] & _ & Hd' & Hlt). congruence.
        -- split; [done|]. intros (_ & s' & date' & [= <-] & _ & Hd' & _). congruence.
    + split; [done|]. by intros (_ & s & date & [=] & _).
  - intros s date Hs Hd. unfold isOverdue. rewrite Hs, Hd.
    destruct (_ || _); [done|]. rewrite Z.ltb_lt. intros Hlt. unfold diffDays.
    pose proof (ServerFacts.Math_ceil_div_spec (date - now) day ltac:(done)) as Hk.
    assert (Hday : 0 < day) by done. nia.
  - intros s date Hs Hne Hd Hc Hr. unfold due_badge, isOverdue. rewrite Hs, Hc, Hd.
    apply String.eqb_neq in Hne. rewrite Hne. cbn [orb].
    rewrite (formatDate_of_diffDays s date now 0 Hd) by lia.
    by rewrite (proj2 (Z.ltb_lt date now)) by lia.
Qed.

End DateFacts.

(** ** The handlers of [TodoApp] *)

Section HandlerFacts.

Variable trim : string -> string.
Variable toLowerCase : string -> string.
Variable toISOString : Z -> string.

Lemma filter_negb_nil {A} (p : A -> bool) (l : list A) :
  List.filter p (List.filter (fun x => negb (p x)) l) = [].
Proof.
  induction l as [|x l IH]; simpl; [done|].
  destruct (p x) eqn:E; simpl; [exact IH|]. by rewrite E.
Qed.

Lemma filter_idem {A} (p : A -> bool) (l : list A) :
  List.filter p (List.filter p l) = List.filter p l.
Proof.
  induction l as [|x l IH]; simpl; [done|].
  destruct (p x) eqn:E; simpl; [|exact IH]. by rewrite E, IH.
Qed.

(** X29.  Clearing completed todos removes every completed todo of the
    state, also one that the filter or the search hides, and no other: the
    statistics then count no completed todo and as many active ones as
    before, nothing completed is left to display, the button that clears
    is no longer shown, and clearing again changes nothing. *)
Theorem handleClearCompleted_clears
    (todos : list Todo) (filter : TodoFilter) (searchQuery : string) :
  let todos' := handleClearCompleted todos in
  (forall todo, todo ∈ todos' <-> todo ∈ todos /\ completed todo = false)
  /\ app_completed (calculateStats todos') = 0
  /\ app_active (calculateStats todos') = app_active (calculateStats todos)
  /\ app_total (calculateStats todos') = app_active (calculateStats todos)
  /\ displayedTodos trim toLowerCase todos' Completed searchQuery = []
  /\ hasCompleted (displayedTodos trim toLowerCase todos' filter searchQuery) = false
  /\ handleClearCompleted todos' = todos'.
Proof.
  intros todos'. unfold todos', handleClearCompleted.
  pose proof (length_completed_active todos) as Hp.
  assert (Hnil : List.filter (fun t => completed t)
                   (List.filter (fun todo => negb (completed todo)) todos) = []).
  { apply (filter_negb_nil (fun todo => completed todo)). }
  split; [|split; [|split; [|split; [|split; [|split]]]]].
  - intros todo. by rewrite elem_of_filter_bool, negb_true_iff.
  - unfold calculateStats. cbn [app_completed]. by rewrite Hnil.
  - unfold calculateStats. cbn [app_active]. rewrite Hnil. simpl length. lia.
  - unfold calculateStats. cbn [app_active app_total]. lia.
  - unfold displayedTodos. cbn [filterTodos]. rewrite Hnil. unfold searchTodos.
    by destruct (String.eqb _ _).
  - unfold hasCompleted. apply not_true_iff_false. intros H.
    apply existsb_exists in H as (todo & Hin & Hdone).
    apply list_elem_of_In in Hin. unfold displayedTodos in Hin.
    eapply elem_of_sublist in Hin; [|apply searchTodos_sublist].
    eapply elem_of_sublist in Hin; [|apply filterTodos_sublist].
    apply elem_of_filter_bool in Hin as [_ Hin]. by rewrite Hdone in Hin.
  - apply filter_idem.
Qed.

(** X30.  Creating a todo puts it first in the state, not completed: the
    statistics count one todo and one active todo more, and the todo is on
    display first unless the filter shows completed todos only or a search
    is on; toggling a todo twice gives every todo the completion it had,
    and so the statistics they had. *)
Theorem handleCreate_and_handleToggle
    (data : CreateTodoInput) (id : string) (now now' : Z) (todos : list Todo) :
  let todos' := handleCreate toISOString data id now todos in
  let new := mkTodo id (input_title data) (input_description data) false
               (input_priority data) (input_due_date data)
               (toISOString now) (toISOString now) in
  todos' = new :: todos
  /\ app_total (calculateStats todos') = app_total (calculateStats todos) + 1
  /\ app_active (calculateStats todos') = app_active (calculateStats todos) + 1
  /\ app_completed (calculateStats todos') = app_completed (calculateStats todos)
  /\ (forall filter searchQuery,
        filter <> Completed -> trim searchQuery = "" ->
        displayedTodos trim toLowerCase todos' filter searchQuery
        = new :: displayedTodos trim toLowerCase todos filter searchQuery)
  /\ (forall id',
        map completed (handleToggle toISOString id' now'
                         (handleToggle toISOString id' now todos))
        = map completed todos).
Proof.
  intros todos' new. unfold todos', handleCreate. fold new.
  split; [done|]. split; [|split; [|split; [|split]]].
  - cbn -[Z.add Z.of_nat]. lia.
  - cbn -[Z.add Z.sub Z.of_nat]. lia.
  - reflexivity.
  - intros filter searchQuery Hf Hq. unfold displayedTodos, searchTodos.
    rewrite Hq. cbn [String.eqb]. by destruct filter.
  - intros id'. unfold handleToggle.
    apply (ClientExtraFacts.map_id_toggled_twice toISOString id' now now' todos).
Qed.

End HandlerFacts.


Lemma formatDate_counts_started_days_witness :
  formatDate decimal_date no_year no_locale "1000" 999 = "Tomorrow".
Proof.
  destruct (formatDate_counts_started_days decimal_date no_year no_locale
              "1000" 1000 999 eq_refl) as (_ & H & _).
  apply H. unfold day. lia.
Defined.

End HelpersFacts.
